(** * idex-sdk-js: the WebSocket client and its message normalizer

    A shallow embedding of
      - [src/client/webSocket/transform.ts] (the message normalizer and
        [removeWalletFromSdkSubscription]), and
      - the [WebSocketClient] class (connection life cycle, reconnection,
        subscription routing),
    followed by the properties proved about them.

    Conventions.
      - A JavaScript value that comes out of [JSON.parse] is a [JsValue];
        objects keep their insertion order (association lists).
      - A synchronous call ends in a [Completion]: it returns or it throws.
        An [async] function ends in a [Promise]: it fulfils or it rejects.
      - The client's fields, the transport objects it created, the timers it
        armed and the listener notifications it issued live in one [World];
        every method is a function [World -> outcome * World]. *)

From Stdlib Require Import ZArith List Bool Lia.
From stdpp Require Import base option gmap strings list fin_maps.
Import ListNotations.

Set Warnings "-register-all".
Open Scope string_scope.
Open Scope list_scope.

(* ===================================================================== *)
(** ** JavaScript values                                                  *)
(* ===================================================================== *)

Module Js.

(** Values as [JSON.parse] produces them, plus [undefined] (what reading a
    missing property gives).  Numbers are the integers of the wire format
    (times, sequence numbers, counts). *)
Inductive JsValue : Type :=
| JUndefined
| JNull
| JBool (b : bool)
| JNumber (n : Z)
| JString (s : string)
| JArray (elements : list JsValue)
| JObject (properties : list (string * JsValue)).

Definition JsObject : Type := list (string * JsValue).

(** What a synchronous call can throw.  The client throws plain [Error]s
    that differ by message; the constructors are named after the classes the
    specification gives them, and carry the message of the source.
    [TypeError] is the runtime's (reading a property of [null], calling what
    is not a function); [TokenFetchError] is a rejection of the injected
    token-fetch capability. *)
Inductive Exception : Type :=
| ConfigurationError (message : string)
| NotConnectedError (message : string)
| TokenFetchError
| TypeError.

Inductive Completion (A : Type) : Type :=
| Normal (a : A)
| Throw (e : Exception).
Arguments Normal {A} a.
Arguments Throw {A} e.

(** The settled state of the promise an [async] function returns. *)
Inductive Promise (A : Type) : Type :=
| Fulfilled (a : A)
| Rejected (e : Exception).
Arguments Fulfilled {A} a.
Arguments Rejected {A} e.

(** JavaScript truthiness: [undefined], [null], [false], [0] and the empty
    string are falsy; everything else, arrays and objects included, is
    truthy. *)
Definition truthy (v : JsValue) : bool :=
  match v with
  | JUndefined | JNull => false
  | JBool b => b
  | JNumber n => negb (n =? 0)%Z
  | JString s => negb (String.eqb s "")
  | JArray _ | JObject _ => true
  end.

Definition nullish (v : JsValue) : bool :=
  match v with
  | JUndefined | JNull => true
  | _ => false
  end.

(** Own property lookup of an object: the first entry for the key. *)
Fixpoint lookupProp (k : string) (o : JsObject) : option JsValue :=
  match o with
  | [] => None
  | (k', v) :: rest => if String.eqb k k' then Some v else lookupProp k rest
  end.

Definition hasOwn (k : string) (o : JsObject) : bool :=
  match lookupProp k o with Some _ => true | None => false end.

(** [v.k] on a value that is not [null] or [undefined]: the property of an
    object, [undefined] when it has none (and for the primitives, which have
    none of the wire format's keys). *)
Definition getProp (v : JsValue) (k : string) : JsValue :=
  match v with
  | JObject o => default JUndefined (lookupProp k o)
  | _ => JUndefined
  end.

(** [...(c && { k: v })] inside an object literal: when [c] is truthy the
    [&&] yields the object, whose properties are spread; when [c] is falsy
    the [&&] yields [c] itself, and spreading a falsy primitive adds
    nothing. *)
Definition spreadWhen (c : JsValue) (o : JsObject) : JsObject :=
  if truthy c then o else [].

(** [{ ...o, k: v }]: [k] keeps its place when [o] has it, and is appended
    otherwise. *)
Fixpoint setProp (k : string) (v : JsValue) (o : JsObject) : JsObject :=
  match o with
  | [] => [(k, v)]
  | (k', v') :: rest =>
      if String.eqb k k' then (k, v) :: rest else (k', v') :: setProp k v rest
  end.

(** [xs.map(f)] for an [f] that may throw: the first exception ends the
    loop. *)
Fixpoint mapCompletion {A B : Type} (f : A -> Completion B) (xs : list A)
  : Completion (list B) :=
  match xs with
  | [] => Normal []
  | x :: rest =>
      match f x with
      | Throw e => Throw e
      | Normal y =>
          match mapCompletion f rest with
          | Throw e => Throw e
          | Normal ys => Normal (y :: ys)
          end
      end
  end.

End Js.
Import Js.

(* ===================================================================== *)
(** ** transform.ts: the message normalizer                               *)
(* ===================================================================== *)

Module Transform.

(** Each normalizer reads properties of its argument, so it throws a
    [TypeError] on [null] and [undefined] and nothing else. *)
Definition onPayload (payload : JsValue) (long : JsObject) : Completion JsValue :=
  if nullish payload then Throw TypeError else Normal (JObject long).

Definition transformTickersMessage (ticker : JsValue) : Completion JsValue :=
  onPayload ticker
    ([ ("market", getProp ticker "m");
       ("time", getProp ticker "t");
       ("open", getProp ticker "o");
       ("high", getProp ticker "h");
       ("low", getProp ticker "l");
       ("close", getProp ticker "c");
       ("closeQuantity", getProp ticker "Q");
       ("baseVolume", getProp ticker "v");
       ("quoteVolume", getProp ticker "q");
       ("percentChange", getProp ticker "P") ]
     ++ spreadWhen (getProp ticker "n") [ ("numTrades", getProp ticker "n") ]
     ++ [ ("ask", getProp ticker "a");
          ("bid", getProp ticker "b");
          ("sequence", getProp ticker "u") ]).

Definition transformTradesMessage (trade : JsValue) : Completion JsValue :=
  onPayload trade
    [ ("market", getProp trade "m");
      ("fillId", getProp trade "i");
      ("price", getProp trade "p");
      ("quantity", getProp trade "q");
      ("quoteQuantity", getProp trade "Q");
      ("time", getProp trade "t");
      ("makerSide", getProp trade "s");
      ("sequence", getProp trade "u") ].

Definition transformCandlesMessage (candle : JsValue) : Completion JsValue :=
  onPayload candle
    [ ("market", getProp candle "m");
      ("time", getProp candle "t");
      ("interval", getProp candle "i");
      ("start", getProp candle "s");
      ("end", getProp candle "e");
      ("open", getProp candle "o");
      ("high", getProp candle "h");
      ("low", getProp candle "l");
      ("close", getProp candle "c");
      ("volume", getProp candle "v");
      ("numTrades", getProp candle "n");
      ("sequence", getProp candle "u") ].

Definition transformL1orderbooksMessage (l1orderbook : JsValue) : Completion JsValue :=
  onPayload l1orderbook
    [ ("market", getProp l1orderbook "m");
      ("time", getProp l1orderbook "t");
      ("bidPrice", getProp l1orderbook "b");
      ("bidQuantity", getProp l1orderbook "B");
      ("askPrice", getProp l1orderbook "a");
      ("askQuantity", getProp l1orderbook "A") ].

Definition transformL2orderbooksMessage (l2orderbook : JsValue) : Completion JsValue :=
  onPayload l2orderbook
    ([ ("market", getProp l2orderbook "m");
       ("time", getProp l2orderbook "t");
       ("sequence", getProp l2orderbook "u") ]
     ++ spreadWhen (getProp l2orderbook "b") [ ("bids", getProp l2orderbook "b") ]
     ++ spreadWhen (getProp l2orderbook "a") [ ("asks", getProp l2orderbook "a") ]).

Definition transformBalancesMessage (balance : JsValue) : Completion JsValue :=
  onPayload balance
    [ ("wallet", getProp balance "w");
      ("asset", getProp balance "a");
      ("quantity", getProp balance "q");
      ("availableForTrade", getProp balance "f");
      ("locked", getProp balance "l");
      ("usdValue", getProp balance "d") ].

Definition transformOrderFill (fill : JsValue) : Completion JsValue :=
  onPayload fill
    ([ ("fillId", getProp fill "i");
       ("price", getProp fill "p");
       ("quantity", getProp fill "q");
       ("quoteQuantity", getProp fill "Q");
       ("time", getProp fill "t");
       ("makerSide", getProp fill "s");
       ("sequence", getProp fill "u");
       ("fee", getProp fill "f");
       ("feeAsset", getProp fill "a") ]
     ++ spreadWhen (getProp fill "g") [ ("gas", getProp fill "g") ]
     ++ [ ("liquidity", getProp fill "l") ]
     ++ spreadWhen (getProp fill "T") [ ("txId", getProp fill "T") ]
     ++ [ ("txStatus", getProp fill "S") ]).

(** [order.F && { fills: order.F.map(transformOrderFill) }]: nothing when
    [F] is falsy, the mapped array when it is an array, and a [TypeError]
    when it is a truthy value without a [map] method. *)
Definition fillsOf (F : JsValue) : Completion JsObject :=
  if truthy F then
    match F with
    | JArray fills =>
        match mapCompletion transformOrderFill fills with
        | Normal long => Normal [ ("fills", JArray long) ]
        | Throw e => Throw e
        end
    | _ => Throw TypeError
    end
  else Normal [].

Definition transformOrdersMessage (order : JsValue) : Completion JsValue :=
  if nullish order then Throw TypeError else
  match fillsOf (getProp order "F") with
  | Throw e => Throw e
  | Normal fills =>
      Normal (JObject
        ([ ("market", getProp order "m");
           ("orderId", getProp order "i");
           ("clientOrderId", getProp order "c");
           ("wallet", getProp order "w");
           ("time", getProp order "t");
           ("timeOfOriginalOrder", getProp order "T");
           ("executionType", getProp order "x");
           ("status", getProp order "X") ]
         ++ spreadWhen (getProp order "u")
              [ ("orderBookSequenceNumber", getProp order "u") ]
         ++ [ ("type", getProp order "o");
              ("side", getProp order "S");
              ("originalQuantity", getProp order "q") ]
         ++ spreadWhen (getProp order "Q")
              [ ("originalQuoteQuantity", getProp order "Q") ]
         ++ [ ("executedQuantity", getProp order "z");
              ("cumulativeQuoteQuantity", getProp order "Z") ]
         ++ spreadWhen (getProp order "v") [ ("avgExecutionPrice", getProp order "v") ]
         ++ spreadWhen (getProp order "p") [ ("limitOrderPrice", getProp order "p") ]
         ++ spreadWhen (getProp order "P") [ ("stopOrderPrice", getProp order "P") ]
         ++ [ ("timeInForce", getProp order "f");
              ("selfTradePrevention", getProp order "V") ]
         ++ fills))
  end.

(** [{ ...message, data: f(message.data) }] *)
Definition withData (message : JsValue) (f : JsValue -> Completion JsValue)
  : Completion JsValue :=
  match f (getProp message "data") with
  | Throw e => Throw e
  | Normal data =>
      match message with
      | JObject o => Normal (JObject (setProp "data" data o))
      | _ => Normal (JObject [ ("data", data) ])
      end
  end.

Definition typeIs (message : JsValue) (t : string) : bool :=
  match getProp message "type" with
  | JString s => String.eqb s t
  | _ => false
  end.

Definition transformMessage (message : JsValue) : Completion JsValue :=
  if nullish message then Throw TypeError
  else if typeIs message "error" || typeIs message "subscriptions" then Normal message
  else if typeIs message "candles" then withData message transformCandlesMessage
  else if typeIs message "tickers" then withData message transformTickersMessage
  else if typeIs message "l1orderbook" then withData message transformL1orderbooksMessage
  else if typeIs message "l2orderbook" then withData message transformL2orderbooksMessage
  else if typeIs message "trades" then withData message transformTradesMessage
  else if typeIs message "balances" then withData message transformBalancesMessage
  else if typeIs message "orders" then withData message transformOrdersMessage
  else Normal message.

(** The optional fields of the short-form payloads: for each normalizer,
    the short key read and the long key written under
    [...(x.k && { K: x.k })]. *)
Definition tickerOptionalFields : list (string * string) :=
  [ ("n", "numTrades") ].
Definition l2orderbookOptionalFields : list (string * string) :=
  [ ("b", "bids"); ("a", "asks") ].
Definition orderFillOptionalFields : list (string * string) :=
  [ ("g", "gas"); ("T", "txId") ].
(** [F] is optional too, but its value is mapped, not copied. *)
Definition orderOptionalFields : list (string * string) :=
  [ ("u", "orderBookSequenceNumber"); ("Q", "originalQuoteQuantity");
    ("v", "avgExecutionPrice"); ("p", "limitOrderPrice"); ("P", "stopOrderPrice") ].

(** The short-form payloads that have optional fields, with their
    normalizers and their tables. *)
Inductive ShortForm : Type := TickerShort | L2OrderBookShort | OrderFillShort | OrderShort.

Definition normalizerOf (t : ShortForm) : JsValue -> Completion JsValue :=
  match t with
  | TickerShort => transformTickersMessage
  | L2OrderBookShort => transformL2orderbooksMessage
  | OrderFillShort => transformOrderFill
  | OrderShort => transformOrdersMessage
  end.

Definition optionalFieldsOf (t : ShortForm) : list (string * string) :=
  match t with
  | TickerShort => tickerOptionalFields
  | L2OrderBookShort => l2orderbookOptionalFields
  | OrderFillShort => orderFillOptionalFields
  | OrderShort => orderOptionalFields
  end.

(** A subscription as the client receives it: the topic [name], the
    optional [wallet] ([None]: the property is missing or [undefined]), and
    its remaining properties (markets, interval, ...), which the client
    never reads. *)
Record Subscription : Type := mkSubscription {
  name : string;
  wallet : option string;
  params : JsObject
}.

(** [subscription.wallet] used as a condition: true for a wallet that is
    present and is not the empty string.  This is how the client tells a
    subscription that carries a wallet from one that does not, both in the
    [filter] that collects the wallets in [subscribe] and in the [if]
    below. *)
Definition hasWallet (subscription : Subscription) : bool :=
  match wallet subscription with
  | Some w => negb (String.eqb w "")
  | None => false
  end.

(** A copy of the subscription ([{ ...subscription }]) from which [wallet]
    is deleted when it is truthy.  A subscription without wallet, or whose
    wallet is the empty string, comes back as it was. *)
Definition removeWalletFromSdkSubscription (subscription : Subscription) : Subscription :=
  let subscriptionWithoutWallet := subscription in
  if hasWallet subscriptionWithoutWallet
  then {| name := name subscriptionWithoutWallet;
          wallet := None;
          params := params subscriptionWithoutWallet |}
  else subscriptionWithoutWallet.

End Transform.
Import Transform.

(* ===================================================================== *)
(** ** What the client imports from modules that are not modelled here    *)
(* ===================================================================== *)

(** The client is written against these imports; every definition and
    theorem below is parametric in them.
      - [SANDBOX_WEBSOCKET_API_BASE_URL]: a constant of [constants.ts].
      - [AuthenticatedSubscriptionName]: [Object.keys] of the enum of that
        name in [types/webSocket/request.ts].
      - [WebsocketTokenManager] ([tokenManager.ts]) with its constructor
        and its two methods.  [getToken] is asynchronous: it gives the
        settled promise and the manager's next state.  [getLastCachedToken]
        is a synchronous read; the client may pass it [undefined] (a
        subscription without wallet), hence the [option]. *)
Class Imports : Type := {
  SANDBOX_WEBSOCKET_API_BASE_URL : string;
  AuthenticatedSubscriptionName : list string;
  TokenFetch : Type;
  WebsocketTokenManager : Type;
  newWebsocketTokenManager : TokenFetch -> WebsocketTokenManager;
  getToken : string -> WebsocketTokenManager -> Promise string * WebsocketTokenManager;
  getLastCachedToken : option string -> WebsocketTokenManager -> option string
}.

(** Modelled from the spec: [tokenManager.ts] is missing from the sources.
    The specification describes a cache from wallet to token: [getToken]
    returns the cached token, and otherwise calls the injected fetch
    capability, caching what it resolves to and leaving the cache without an
    entry when it rejects; [getLastCachedToken] reads the cache.  The fetch
    capability is a function from wallet to the token it resolves to
    ([None]: it rejects).  Used only to run the client on concrete inputs. *)
Module TokenManagerModel.

Record TokenManagerState : Type := mkTokenManager {
  websocketAuthTokenFetch : string -> option string;
  walletTokens : gmap string string
}.

Definition create (fetch : string -> option string) : TokenManagerState :=
  {| websocketAuthTokenFetch := fetch; walletTokens := ∅ |}.

Definition get (wallet : string) (tm : TokenManagerState)
  : Promise string * TokenManagerState :=
  match walletTokens tm !! wallet with
  | Some token => (Fulfilled token, tm)
  | None =>
      match websocketAuthTokenFetch tm wallet with
      | Some token =>
          (Fulfilled token,
           {| websocketAuthTokenFetch := websocketAuthTokenFetch tm;
              walletTokens := <[wallet := token]> (walletTokens tm) |})
      | None =>
          (Rejected TokenFetchError,
           {| websocketAuthTokenFetch := websocketAuthTokenFetch tm;
              walletTokens := delete wallet (walletTokens tm) |})
      end
  end.

Definition lastCached (wallet : option string) (tm : TokenManagerState) : option string :=
  match wallet with
  | Some w => walletTokens tm !! w
  | None => None
  end.

End TokenManagerModel.

(** The imports used to run the client on concrete inputs: the token
    manager above, and as authenticated topics the two whose messages carry
    a wallet ([balances], [orders]). *)
Definition sampleImports : Imports := {|
  SANDBOX_WEBSOCKET_API_BASE_URL := "wss://websocket-sandbox.idex.io/v1";
  AuthenticatedSubscriptionName := [ "balances"; "orders" ];
  TokenFetch := string -> option string;
  WebsocketTokenManager := TokenManagerModel.TokenManagerState;
  newWebsocketTokenManager := TokenManagerModel.create;
  getToken := TokenManagerModel.get;
  getLastCachedToken := TokenManagerModel.lastCached
|}.

(* ===================================================================== *)
(** ** The WebSocket client                                               *)
(* ===================================================================== *)

Module Client.
Section WithImports.
Context `{Imports}.

(** The payload handed to [sendMessage] ([request.Request]).  The frame on
    the wire is [JSON.stringify] of it, which leaves out the properties
    whose value is [undefined]: a [cid] or [token] of [None] is not
    transmitted, and neither is a subscription's [wallet] when [None]. *)
Inductive Request : Type :=
| SubscriptionsRequest
| SubscribeRequest (cid : option string) (subscriptions : list Subscription)
    (token : option string)
| UnsubscribeRequest (subscriptions : list JsValue).

Inductive ReadyState : Type := CONNECTING | OPEN | CLOSING | CLOSED.

#[global] Instance ReadyState_eq_dec : EqDecision ReadyState.
Proof. solve_decision. Defined.

(** A transport object ([isomorphic-ws]): its ready state, whether the
    client's close handler is attached to [onclose], and the frames given to
    [send], oldest first. *)
Record WebSocket : Type := mkWebSocket {
  readyState : ReadyState;
  onclose : bool;
  sent : list Request
}.

Inductive Notification : Type :=
| ConnectListeners
| DisconnectListeners.

(** The client's private fields, and around them what its methods act on:
    the transport objects created so far (by handle), the delays in
    milliseconds of the [setTimeout(connect, ...)] calls made so far with
    the number of them that have not fired yet, the sockets that pending
    [connect()] calls are polling, and the listener rounds run so far.
    Listeners are the caller's code; they are taken not to call back into
    the client. *)
Record World : Type := mkWorld {
  baseURL : string;
  shouldReconnectAutomatically : bool;
  reconnectAttempt : nat;
  webSocket : option nat;
  webSocketTokenManager : option WebsocketTokenManager;
  sockets : gmap nat WebSocket;
  timers : list Z;
  pendingTimers : nat;
  polling : list nat;
  notified : list Notification
}.

Definition set_reconnectAttempt (n : nat) (w : World) : World :=
  mkWorld (baseURL w) (shouldReconnectAutomatically w) n (webSocket w)
    (webSocketTokenManager w) (sockets w) (timers w) (pendingTimers w)
    (polling w) (notified w).

Definition set_webSocket (ws : option nat) (w : World) : World :=
  mkWorld (baseURL w) (shouldReconnectAutomatically w) (reconnectAttempt w) ws
    (webSocketTokenManager w) (sockets w) (timers w) (pendingTimers w)
    (polling w) (notified w).

Definition set_webSocketTokenManager (tm : option WebsocketTokenManager)
  (w : World) : World :=
  mkWorld (baseURL w) (shouldReconnectAutomatically w) (reconnectAttempt w)
    (webSocket w) tm (sockets w) (timers w) (pendingTimers w)
    (polling w) (notified w).

Definition set_sockets (s : gmap nat WebSocket) (w : World) : World :=
  mkWorld (baseURL w) (shouldReconnectAutomatically w) (reconnectAttempt w)
    (webSocket w) (webSocketTokenManager w) s (timers w) (pendingTimers w)
    (polling w) (notified w).

Definition set_timers (t : list Z) (pending : nat) (w : World) : World :=
  mkWorld (baseURL w) (shouldReconnectAutomatically w) (reconnectAttempt w)
    (webSocket w) (webSocketTokenManager w) (sockets w) t pending
    (polling w) (notified w).

Definition set_polling (p : list nat) (w : World) : World :=
  mkWorld (baseURL w) (shouldReconnectAutomatically w) (reconnectAttempt w)
    (webSocket w) (webSocketTokenManager w) (sockets w) (timers w)
    (pendingTimers w) p (notified w).

Definition notify (n : Notification) (w : World) : World :=
  mkWorld (baseURL w) (shouldReconnectAutomatically w) (reconnectAttempt w)
    (webSocket w) (webSocketTokenManager w) (sockets w) (timers w)
    (pendingTimers w) (polling w) (notified w ++ [n]).

(** *** Synchronous methods: state and exceptions *)

Definition M (A : Type) : Type := World -> Completion A * World.

Definition ret {A : Type} (a : A) : M A := fun w => (Normal a, w).

Definition throw {A : Type} (e : Exception) : M A := fun w => (Throw e, w).

Definition bind {A B : Type} (m : M A) (k : A -> M B) : M B :=
  fun w =>
    match m w with
    | (Normal a, w') => k a w'
    | (Throw e, w') => (Throw e, w')
    end.

Notation "x <- m ;; k" := (bind m (fun x => k))
  (at level 100, m at level 99, right associativity).
Notation "m ;; k" := (bind m (fun _ => k))
  (at level 100, right associativity).

(** [xs.forEach(f)] *)
Fixpoint forEach {A : Type} (xs : list A) (f : A -> M unit) : M unit :=
  match xs with
  | [] => ret tt
  | x :: rest => f x ;; forEach rest f
  end.

(** An [async] function whose body runs to its end without suspending:
    a [throw] in the body rejects the promise. *)
Definition async {A : Type} (body : M A) : World -> Promise A * World :=
  fun w =>
    match body w with
    | (Normal a, w') => (Fulfilled a, w')
    | (Throw e, w') => (Rejected e, w')
    end.

(** *** Construction *)

Record WebSocketClientOptions : Type := mkOptions {
  sandbox : bool;
  optBaseURL : option string;
  websocketAuthTokenFetch : option TokenFetch;
  optShouldReconnectAutomatically : bool
}.

Definition constructor (options : WebSocketClientOptions) : Completion World :=
  let url := if sandbox options then Some SANDBOX_WEBSOCKET_API_BASE_URL
             else optBaseURL options in
  match url with
  | Some u =>
      if String.eqb u "" then Throw (ConfigurationError "Must set sandbox to true")
      else Normal {|
        baseURL := u;
        shouldReconnectAutomatically := optShouldReconnectAutomatically options;
        reconnectAttempt := 0;
        webSocket := None;
        webSocketTokenManager :=
          match websocketAuthTokenFetch options with
          | Some fetch => Some (newWebsocketTokenManager fetch)
          | None => None
          end;
        sockets := ∅;
        timers := [];
        pendingTimers := 0;
        polling := [];
        notified := []
      |}
  | None => Throw (ConfigurationError "Must set sandbox to true")
  end.

(** *** Connection management *)

Definition socketState (ws : nat) (w : World) : option ReadyState :=
  readyState <$> sockets w !! ws.

(** [this.webSocket?.readyState === WebSocket.OPEN] *)
Definition isConnected (w : World) : bool :=
  match webSocket w with
  | Some ws => bool_decide (socketState ws w = Some OPEN)
  | None => false
  end.

(** [new WebSocket(...)] gives a transport object that is connecting; the
    client attaches its handlers, [onclose] among them. *)
Definition createWebSocket : M unit := fun w =>
  let ws := fresh (dom (sockets w)) in
  (Normal tt,
   set_webSocket (Some ws)
     (set_sockets
        (<[ws := {| readyState := CONNECTING; onclose := true; sent := [] |}]>
           (sockets w)) w)).

(** [ws.close()]: a socket that is not closed yet starts closing; its close
    event comes later, from the transport. *)
Definition closing (s : WebSocket) : WebSocket :=
  {| readyState := match readyState s with CLOSED => CLOSED | _ => CLOSING end;
     onclose := onclose s;
     sent := sent s |}.

Definition detach (s : WebSocket) : WebSocket :=
  {| readyState := readyState s; onclose := false; sent := sent s |}.

Definition destroyWebSocket : M unit := fun w =>
  match webSocket w with
  | Some ws =>
      (Normal tt,
       set_webSocket None
         (set_sockets (alter closing ws (alter detach ws (sockets w))) w))
  | None => (Throw TypeError, w)
  end.

Definition resetReconnectionState : M unit := fun w =>
  (Normal tt, set_reconnectAttempt 0 w).

(** [connect()] up to its [await]: it returns [None] when the promise is
    already settled (the client was connected), and otherwise the socket
    whose ready state the pending call polls. *)
Definition connect : M (option nat) := fun w =>
  if isConnected w then (Normal None, w)
  else
    let w1 := match webSocket w with
              | None => snd (createWebSocket w)
              | Some _ => w
              end in
    match webSocket w1 with
    | Some ws => (Normal (Some ws), set_polling (polling w1 ++ [ws]) w1)
    | None => (Throw TypeError, w1)
    end.

(** [connect()] after its [await], once the poll has seen the socket open. *)
Definition connectOpened : M unit :=
  resetReconnectionState ;;
  fun w => (Normal tt, notify ConnectListeners w).

Definition disconnect : M unit := fun w =>
  match webSocket w with
  | None => (Normal tt, w)
  | Some _ =>
      (destroyWebSocket ;;
       fun w' => (Normal tt, notify DisconnectListeners w')) w
  end.

Definition reconnect : M unit := fun w =>
  let backoffSeconds := (2 ^ Z.of_nat (reconnectAttempt w))%Z in
  let w1 := set_reconnectAttempt (reconnectAttempt w + 1) w in
  (Normal tt,
   set_timers (timers w1 ++ [(backoffSeconds * 1000)%Z]) (pendingTimers w1 + 1) w1).

Definition handleWebSocketClose : M unit :=
  (fun w => (Normal tt, set_webSocket None w)) ;;
  (fun w => (Normal tt, notify DisconnectListeners w)) ;;
  (fun w => if shouldReconnectAutomatically w then reconnect w else (Normal tt, w)).

(** *** Sending *)

Definition throwIfDisconnected : M unit := fun w =>
  if isConnected w then (Normal tt, w)
  else (Throw (NotConnectedError
                 "Websocket not yet connected, await connect() method first"), w).

Definition push (payload : Request) (s : WebSocket) : WebSocket :=
  {| readyState := readyState s; onclose := onclose s; sent := sent s ++ [payload] |}.

(** [this.webSocket.send(JSON.stringify(payload))] *)
Definition send (payload : Request) : M unit := fun w =>
  match webSocket w with
  | Some ws => (Normal tt, set_sockets (alter (push payload) ws (sockets w)) w)
  | None => (Throw TypeError, w)
  end.

Definition sendMessage (payload : Request) : M unit :=
  throwIfDisconnected ;; send payload.

(** *** Subscription management *)

Definition listSubscriptions : M unit :=
  sendMessage SubscriptionsRequest.

Definition unsubscribe (subscriptions : list JsValue) : M unit :=
  sendMessage (UnsubscribeRequest subscriptions).

Definition isAuthenticatedSubscription (subscription : Subscription) : bool :=
  existsb (String.eqb (name subscription)) AuthenticatedSubscriptionName.

(** [Array.from(new Set(xs))]: each element once, in the order of first
    occurrence. *)
Definition setAdd (set : list string) (x : string) : list string :=
  if existsb (String.eqb x) set then set else set ++ [x].

Definition arrayFromSet (xs : list string) : list string :=
  fold_left setAdd xs [].

Definition authSubscriptionsOf (subscriptions : list Subscription) : list Subscription :=
  List.filter isAuthenticatedSubscription subscriptions.

Definition uniqueWalletsOf (subscriptions : list Subscription) : list string :=
  arrayFromSet
    (omap wallet (List.filter hasWallet (authSubscriptionsOf subscriptions))).

Definition publicSubscriptionsOf (subscriptions : list Subscription) : list Subscription :=
  List.filter (fun subscription => negb (isAuthenticatedSubscription subscription))
    subscriptions.

(** [uniqueWallets.map((wallet) => this.webSocketTokenManager.getToken(wallet))]:
    the calls are made in order, each on the manager the previous one left. *)
Fixpoint getTokens (wallets : list string) (tm : WebsocketTokenManager)
  : list (Promise string) * WebsocketTokenManager :=
  match wallets with
  | [] => ([], tm)
  | wallet :: rest =>
      let '(p, tm1) := getToken wallet tm in
      let '(ps, tm2) := getTokens rest tm1 in
      (p :: ps, tm2)
  end.

(** [Promise.all]: fulfilled when all are, rejected with a rejection among
    them otherwise. *)
Fixpoint promiseAll {A : Type} (ps : list (Promise A)) : Promise (list A) :=
  match ps with
  | [] => Fulfilled []
  | Rejected e :: _ => Rejected e
  | Fulfilled a :: rest =>
      match promiseAll rest with
      | Fulfilled l => Fulfilled (a :: l)
      | Rejected e => Rejected e
      end
  end.

(** [await Promise.all(uniqueWallets.map(...))] *)
Definition prepareTokens (uniqueWallets : list string) (w : World)
  : Promise (list string) * World :=
  match uniqueWallets, webSocketTokenManager w with
  | [], _ => (Fulfilled [], w)
  | _ :: _, None => (Rejected TypeError, w)
  | _ :: _, Some tm =>
      let '(ps, tm') := getTokens uniqueWallets tm in
      (promiseAll ps, set_webSocketTokenManager (Some tm') w)
  end.

(** [this.webSocketTokenManager.getLastCachedToken(wallet)] *)
Definition lastCachedToken (wallet : option string) : M (option string) := fun w =>
  match webSocketTokenManager w with
  | Some tm => (Normal (getLastCachedToken wallet tm), w)
  | None => (Throw TypeError, w)
  end.

(** The body of [subscribe] after its [await] (the routing). *)
Definition subscribeRouting (subscriptions : list Subscription) (cid : option string)
  (authSubscriptions : list Subscription) (uniqueWallets : list string) : M unit :=
  if Nat.eqb (length uniqueWallets) 1 then
    token <- lastCachedToken (head uniqueWallets) ;;
    sendMessage
      (SubscribeRequest cid (map removeWalletFromSdkSubscription subscriptions) token)
  else
    let publicSubscriptions := publicSubscriptionsOf subscriptions in
    (if Nat.ltb 0 (length publicSubscriptions)
     then sendMessage (SubscribeRequest cid publicSubscriptions None)
     else ret tt) ;;
    forEach authSubscriptions (fun authSubscription =>
      token <- lastCachedToken (wallet authSubscription) ;;
      sendMessage
        (SubscribeRequest cid [removeWalletFromSdkSubscription authSubscription] token)).

(** [subscribe] is modelled as running to its end in one go: nothing else
    happens to the client while the call is suspended at its [await].  The
    code before the [await] is the two guards and [prepareTokens]; the code
    after it is [subscribeRouting]. *)
Definition isConfigured {A : Type} (x : option A) : bool :=
  match x with Some _ => true | None => false end.

Definition subscribe (subscriptions : list Subscription) (cid : option string)
  (w : World) : Promise unit * World :=
  let authSubscriptions := authSubscriptionsOf subscriptions in
  let uniqueWallets := uniqueWalletsOf subscriptions in
  if Nat.ltb 0 (length authSubscriptions) && negb (isConfigured (webSocketTokenManager w)) then
    (Rejected (ConfigurationError
       "`websocketAuthTokenFetch` is required for authenticated subscriptions"), w)
  else if Nat.ltb 0 (length authSubscriptions) && negb (Nat.ltb 0 (length uniqueWallets)) then
    (Rejected (ConfigurationError
       "WebSocket: Missing wallet for authenticated subscription"), w)
  else
    match prepareTokens uniqueWallets w with
    | (Rejected e, w1) => (Rejected e, w1)
    | (Fulfilled _, w1) =>
        async (subscribeRouting subscriptions cid authSubscriptions uniqueWallets) w1
    end.

(** The typed wrappers call [this.subscribe(subscriptions)] and drop the
    promise: they return [undefined] whatever the promise settles to.  The
    world they are given back with is the one the dropped call leaves. *)
Definition subscribeAuthenticated (subscriptions : list Subscription) : M unit := fun w =>
  let '(_, w') := subscribe subscriptions None w in (Normal tt, w').

Definition subscribeUnauthenticated (subscriptions : list Subscription) : M unit := fun w =>
  let '(_, w') := subscribe subscriptions None w in (Normal tt, w').

(** *** The client among its callers, the transport and the timers *)

Inductive Event : Type :=
| CallConnect
| CallDisconnect
| TransportOpens (ws : nat)
| TransportCloses (ws : nat)
| TimerFires
| PollSeesOpen (ws : nat).

Definition opened (s : WebSocket) : WebSocket :=
  {| readyState := match readyState s with CONNECTING => OPEN | r => r end;
     onclose := onclose s;
     sent := sent s |}.

Definition closed (s : WebSocket) : WebSocket :=
  {| readyState := CLOSED; onclose := onclose s; sent := sent s |}.

Fixpoint removeFirst (x : nat) (l : list nat) : list nat :=
  match l with
  | [] => []
  | y :: rest => if Nat.eqb x y then rest else y :: removeFirst x rest
  end.

(** One event.  The transport opens a connecting socket; it closes a socket
    that is not closed yet, once, and then calls the handler attached to
    [onclose], if any; a timer armed by [reconnect] fires and calls
    [connect]; the poll of a pending [connect()] sees its socket open and the
    call resumes.  An event that cannot happen in a world leaves it as it
    is. *)
Definition step (ev : Event) (w : World) : World :=
  match ev with
  | CallConnect => snd (connect w)
  | CallDisconnect => snd (disconnect w)
  | TransportOpens ws => set_sockets (alter opened ws (sockets w)) w
  | TransportCloses ws =>
      match sockets w !! ws with
      | Some s =>
          if bool_decide (readyState s = CLOSED) then w
          else
            let w1 := set_sockets (alter closed ws (sockets w)) w in
            if onclose s then snd (handleWebSocketClose w1) else w1
      | None => w
      end
  | TimerFires =>
      match pendingTimers w with
      | O => w
      | S n => snd (connect (set_timers (timers w) n w))
      end
  | PollSeesOpen ws =>
      if bool_decide (ws ∈ polling w) && bool_decide (socketState ws w = Some OPEN)
      then snd (connectOpened (set_polling (removeFirst ws (polling w)) w))
      else w
  end.

Definition run (evs : list Event) (w : World) : World :=
  fold_left (fun w ev => step ev w) evs w.

(** The worlds a client can be in: those a sequence of events leads to from
    a freshly constructed client. *)
Definition reachable (w : World) : Prop :=
  exists options w0 evs, constructor options = Normal w0 /\ w = run evs w0.

(** A client constructed without [websocketAuthTokenFetch], at any later
    time. *)
Definition builtWithoutTokenFetch (w : World) : Prop :=
  exists options w0 evs,
    constructor options = Normal w0 /\ websocketAuthTokenFetch options = None /\
    w = run evs w0.

(** The frames given so far to the socket [ws]. *)
Definition framesSent (ws : nat) (w : World) : list Request :=
  match sockets w !! ws with
  | Some s => sent s
  | None => []
  end.

End WithImports.
End Client.
Import Client.

(* ===================================================================== *)
(** ** The frames a call to [subscribe] is expected to send               *)
(* ===================================================================== *)

Section ExpectedFrames.
Context `{Imports}.

(** The socket [ws] after the transport was given [frames] more. *)
Definition pushAll (frames : list Request) (s : WebSocket) : WebSocket :=
  {| readyState := readyState s; onclose := onclose s; sent := sent s ++ frames |}.

Definition afterSending (ws : nat) (frames : list Request) (w : World) : World :=
  set_sockets (alter (pushAll frames) ws (sockets w)) w.

(** One frame with the public subscriptions and no token, if there are
    any. *)
Definition publicFrames (cid : option string) (subscriptions : list Subscription)
  : list Request :=
  match publicSubscriptionsOf subscriptions with
  | [] => []
  | publicSubscriptions => [ SubscribeRequest cid publicSubscriptions None ]
  end.

(** The frame of one authenticated subscription: the subscription alone,
    without its wallet, and the token the manager [tm] has cached for that
    wallet. *)
Definition authFrame (cid : option string) (tm : WebsocketTokenManager)
  (authSubscription : Subscription) : Request :=
  SubscribeRequest cid [ removeWalletFromSdkSubscription authSubscription ]
    (getLastCachedToken (wallet authSubscription) tm).

(** The single frame of a call that references one wallet. *)
Definition singleFrame (cid : option string) (tm : WebsocketTokenManager)
  (subscriptions : list Subscription) (wallet0 : string) : Request :=
  SubscribeRequest cid (map removeWalletFromSdkSubscription subscriptions)
    (getLastCachedToken (Some wallet0) tm).

Definition subscriptionsIn (frame : Request) : list Subscription :=
  match frame with
  | SubscribeRequest _ subscriptions _ => subscriptions
  | _ => []
  end.

Definition tokenIn (frame : Request) : option string :=
  match frame with
  | SubscribeRequest _ _ token => token
  | _ => None
  end.

(** The subscriptions of a frame that go out with a wallet (present and
    not empty). *)
Definition walletsOnTheWire (frame : Request) : list Subscription :=
  List.filter hasWallet (subscriptionsIn frame).

Definition notConnectedMessage : string :=
  "Websocket not yet connected, await connect() method first".

End ExpectedFrames.

(* ===================================================================== *)
(** ** Vocabulary for the connection life cycle                           *)
(* ===================================================================== *)

Section LifeCycleVocabulary.
Context `{Imports}.

(** The delay, in milliseconds, of the reconnect scheduled at a given
    attempt: [2 ^ attempt] seconds. *)
Definition backoffMilliseconds (attempt : nat) : Z :=
  (2 ^ Z.of_nat attempt * 1000)%Z.

(** The transport closes the client's socket behind its back. *)
Definition unexpectedClose (w : World) : World := snd (handleWebSocketClose w).

(** The close handler of socket [ws] has been taken off. *)
Definition detached (ws : nat) (w : World) : Prop :=
  exists s, sockets w !! ws = Some s /\ onclose s = false.

(** A socket whose close event would still reach the client. *)
Definition listening (ws : nat) (w : World) : Prop :=
  exists s, sockets w !! ws = Some s /\ onclose s = true /\ readyState s <> CLOSED.

(** At most one socket is listening, the one the client holds; and the
    handle the client holds is that of a socket it created. *)
Definition handleInvariant (w : World) : Prop :=
  (forall ws, listening ws w -> webSocket w = Some ws) /\
  (forall ws, webSocket w = Some ws -> is_Some (sockets w !! ws)).



End LifeCycleVocabulary.

(* ===================================================================== *)
(** ** Sample inputs                                                      *)
(* ===================================================================== *)

Module Samples.

(** A token-fetch capability that rejects for one wallet. *)
Definition tokenFetch (wallet : string) : option string :=
  if String.eqb wallet "0xBAD" then None else Some ("token-" ++ wallet)%string.

Definition options : @WebSocketClientOptions sampleImports :=
  @mkOptions sampleImports true None (Some tokenFetch) true.

Definition optionsWithoutFetch : @WebSocketClientOptions sampleImports :=
  @mkOptions sampleImports true None None true.

(** [new WebSocketClient(options)] *)
Definition freshClient : @World sampleImports :=
  @mkWorld sampleImports "wss://websocket-sandbox.idex.io/v1" true 0 None
    (Some (TokenManagerModel.create tokenFetch)) ∅ [] 0 [] [].

Definition clientWithoutFetch : @World sampleImports :=
  @mkWorld sampleImports "wss://websocket-sandbox.idex.io/v1" true 0 None
    None ∅ [] 0 [] [].

Definition connecting : list Event := [ CallConnect; TransportOpens 0; PollSeesOpen 0 ].

(** The client after [await client.connect()]; its socket has handle 0. *)
Definition connectedClient : @World sampleImports := run connecting freshClient.

Definition tickers : Subscription :=
  mkSubscription "tickers" None [ ("markets", JArray [ JString "ETH-USDC" ]) ].
Definition tickersWithWallet : Subscription :=
  mkSubscription "tickers" (Some "0xA") [ ("markets", JArray [ JString "ETH-USDC" ]) ].
Definition balancesOfA : Subscription := mkSubscription "balances" (Some "0xA") [].
Definition ordersOfA : Subscription := mkSubscription "orders" (Some "0xA") [].
Definition ordersOfB : Subscription := mkSubscription "orders" (Some "0xB") [].
Definition ordersOfBad : Subscription := mkSubscription "orders" (Some "0xBAD") [].
Definition balancesWithoutWallet : Subscription := mkSubscription "balances" None [].

Definition zeroTradesTicker : JsObject :=
  [ ("m", JString "ETH-USDC"); ("t", JNumber 1590408000000); ("n", JNumber 0) ].
Definition activeTicker : JsObject :=
  [ ("m", JString "ETH-USDC"); ("t", JNumber 1590408000000); ("n", JNumber 14) ].
Definition shortFill : JsValue :=
  JObject [ ("i", JString "fill-1"); ("p", JString "202.00") ].
Definition filledOrder : JsObject :=
  [ ("m", JString "ETH-USDC"); ("i", JString "order-1"); ("F", JArray [ shortFill ]) ].

End Samples.

(* ===================================================================== *)
(** ** Facts about the normalizer                                         *)
(* ===================================================================== *)

Section NormalizerFacts.

Lemma lookupProp_app k (a b : JsObject) :
  lookupProp k (a ++ b) =
  match lookupProp k a with Some v => Some v | None => lookupProp k b end.
Proof.
  induction a as [|[k' v] a IH]; simpl; [reflexivity|].
  destruct (String.eqb k k'); [reflexivity | exact IH].
Qed.

Lemma hasOwn_false k o : hasOwn k o = false -> lookupProp k o = None.
Proof. unfold hasOwn. destruct (lookupProp k o); [discriminate | reflexivity]. Qed.

Lemma getProp_present k o v : lookupProp k o = Some v -> getProp (JObject o) k = v.
Proof. intros E. simpl. rewrite E. reflexivity. Qed.

Lemma getProp_absent k o : lookupProp k o = None -> getProp (JObject o) k = JUndefined.
Proof. intros E. simpl. rewrite E. reflexivity. Qed.

(** The [fills] entry is the only one [fillsOf] ever adds. *)
Lemma fillsOf_keys F entries K :
  fillsOf F = Normal entries -> K <> "fills" -> lookupProp K entries = None.
Proof.
  unfold fillsOf. intros E HK.
  destruct (truthy F).
  - destruct F; try discriminate.
    destruct (mapCompletion transformOrderFill elements); [|discriminate].
    injection E as <-. simpl.
    destruct (String.eqb_spec K "fills"); [contradiction | reflexivity].
  - injection E as <-. reflexivity.
Qed.

Lemma fillsOf_absent entries : fillsOf JUndefined = Normal entries -> entries = [].
Proof. simpl. intros E. injection E as <-. reflexivity. Qed.

Lemma fillsOf_array fills entries :
  fillsOf (JArray fills) = Normal entries ->
  exists long, mapCompletion transformOrderFill fills = Normal long /\
               entries = [ ("fills", JArray long) ].
Proof.
  unfold fillsOf. simpl.
  destruct (mapCompletion transformOrderFill fills) as [long|e]; [|discriminate].
  intros E. injection E as <-. exists long. split; reflexivity.
Qed.


Ltac split_spreads :=
  unfold spreadWhen;
  repeat match goal with
         | |- context [if truthy (getProp ?p ?k) then _ else _] =>
             destruct (truthy (getProp p k))
         end.

Ltac table_cases H :=
  simpl in H;
  repeat match type of H with
         | _ \/ _ => destruct H as [H|H]
         | False => contradiction
         end;
  try (injection H as <- <-).

Lemma normalizer_returns t (payload : JsObject) :
  (t = OrderShort -> exists entries, fillsOf (getProp (JObject payload) "F") = Normal entries) ->
  exists long, normalizerOf t (JObject payload) = Normal (JObject long).
Proof.
  intros HF. destruct t; try (eexists; reflexivity).
  destruct (HF eq_refl) as [entries E].
  unfold normalizerOf, transformOrdersMessage.
  change (nullish (JObject payload)) with false. cbv iota.
  rewrite E. eexists. reflexivity.
Qed.

Lemma Normal_JObject_inj (a b : JsObject) :
  @Normal JsValue (JObject a) = Normal (JObject b) -> a = b.
Proof. congruence. Qed.

Ltac run_normalizer Hrun payload long :=
  unfold normalizerOf, transformTickersMessage, transformL2orderbooksMessage,
    transformOrderFill, transformOrdersMessage, onPayload in Hrun;
  change (nullish (JObject payload)) with false in Hrun; cbv iota in Hrun;
  try match type of Hrun with
      | context [fillsOf ?F] =>
          let entries := fresh "entries" in
          let EF := fresh "EF" in
          destruct (fillsOf F) as [entries|] eqn:EF; [|discriminate Hrun]
      end;
  apply Normal_JObject_inj in Hrun; subst long.

Lemma optional_field_absent t k K (payload long : JsObject) :
  In (k, K) (optionalFieldsOf t) ->
  normalizerOf t (JObject payload) = Normal (JObject long) ->
  hasOwn k payload = false -> hasOwn K long = false.
Proof.
  intros Hin Hrun Habs. apply hasOwn_false in Habs.
  pose proof (getProp_absent _ _ Habs) as Hget.
  destruct t; table_cases Hin; run_normalizer Hrun payload long.
  all:  rewrite Hget; unfold spreadWhen; change (truthy JUndefined) with false; cbv iota;
    split_spreads; unfold hasOwn; rewrite ?lookupProp_app.
  all: try reflexivity.
  all: rewrite (fillsOf_keys _ _ _ EF) by discriminate; reflexivity.
Qed.

Lemma optional_field_present t k K (payload long : JsObject) v :
  In (k, K) (optionalFieldsOf t) ->
  normalizerOf t (JObject payload) = Normal (JObject long) ->
  lookupProp k payload = Some v -> truthy v = true ->
  lookupProp K long = Some v.
Proof.
  intros Hin Hrun Hv Ht.
  pose proof (getProp_present _ _ _ Hv) as Hget.
  destruct t; table_cases Hin; run_normalizer Hrun payload long;
    rewrite !Hget; unfold spreadWhen; rewrite !Ht;
    split_spreads; rewrite ?lookupProp_app.
  all: reflexivity.
Qed.

Lemma order_fills_absent (payload long : JsObject) :
  transformOrdersMessage (JObject payload) = Normal (JObject long) ->
  hasOwn "F" payload = false -> hasOwn "fills" long = false.
Proof.
  intros Hrun Habs. apply hasOwn_false in Habs.
  pose proof (getProp_absent _ _ Habs) as Hget.
  unfold transformOrdersMessage in Hrun.
  change (nullish (JObject payload)) with false in Hrun; cbv iota in Hrun.
  rewrite Hget in Hrun. simpl fillsOf in Hrun.
  apply Normal_JObject_inj in Hrun; subst long.
  split_spreads; reflexivity.
Qed.

Lemma order_fills_present (payload long : JsObject) fills :
  transformOrdersMessage (JObject payload) = Normal (JObject long) ->
  lookupProp "F" payload = Some (JArray fills) ->
  exists longFills,
    mapCompletion transformOrderFill fills = Normal longFills /\
    lookupProp "fills" long = Some (JArray longFills).
Proof.
  intros Hrun HF.
  pose proof (getProp_present _ _ _ HF) as Hget.
  unfold transformOrdersMessage in Hrun.
  change (nullish (JObject payload)) with false in Hrun; cbv iota in Hrun.
  rewrite Hget in Hrun.
  destruct (fillsOf (JArray fills)) as [entries|] eqn:EF; [|discriminate].
  apply fillsOf_array in EF as (longFills & Hmap & ->).
  apply Normal_JObject_inj in Hrun; subst long.
  exists longFills. split; [exact Hmap|].
  split_spreads; reflexivity.
Qed.

End NormalizerFacts.

(* ===================================================================== *)
(** ** Facts about sending                                                *)
(* ===================================================================== *)

Section SendingFacts.
Context `{Imports}.

Lemma afterSending_nil ws w : afterSending ws [] w = w.
Proof.
  unfold afterSending. rewrite alter_id.
  - destruct w; reflexivity.
  - intros [r o s] _. unfold pushAll. simpl. rewrite app_nil_r. reflexivity.
Qed.

Lemma afterSending_app ws l1 l2 w :
  afterSending ws l2 (afterSending ws l1 w) = afterSending ws (l1 ++ l2) w.
Proof.
  unfold afterSending, set_sockets. simpl. f_equal.
  rewrite alter_alter_eq. apply alter_ext.
  intros [r o s] _. unfold pushAll. simpl. rewrite app_assoc. reflexivity.
Qed.

Lemma isConnected_afterSending ws frames w :
  isConnected (afterSending ws frames w) = isConnected w.
Proof.
  unfold isConnected, socketState. simpl.
  destruct (webSocket w) as [i|]; [|reflexivity].
  rewrite lookup_alter. destruct (decide (ws = i)) as [->|]; [|reflexivity].
  destruct (sockets w !! i) as [[r o s]|]; reflexivity.
Qed.

Lemma isConnected_handle w :
  isConnected w = true ->
  exists ws s, webSocket w = Some ws /\ sockets w !! ws = Some s /\ readyState s = OPEN.
Proof.
  unfold isConnected, socketState.
  destruct (webSocket w) as [ws|]; [|discriminate].
  intros E. apply bool_decide_eq_true in E.
  destruct (sockets w !! ws) as [s|] eqn:Es; [|discriminate].
  exists ws, s. split; [reflexivity|]. split; [exact Es|].
  simpl in E. congruence.
Qed.

Lemma framesSent_afterSending ws frames w s :
  sockets w !! ws = Some s ->
  framesSent ws (afterSending ws frames w) = framesSent ws w ++ frames.
Proof.
  intros Es. unfold framesSent, afterSending. simpl.
  rewrite lookup_alter_eq, Es. reflexivity.
Qed.

Lemma framesSent_afterSending_other ws ws' frames w :
  ws <> ws' -> framesSent ws' (afterSending ws frames w) = framesSent ws' w.
Proof.
  intros Hne. unfold framesSent, afterSending. simpl.
  rewrite lookup_alter_ne by exact Hne. reflexivity.
Qed.

Lemma sendMessage_connected payload w ws :
  isConnected w = true -> webSocket w = Some ws ->
  sendMessage payload w = (Normal tt, afterSending ws [payload] w).
Proof.
  intros Hc Hws. unfold sendMessage, bind, throwIfDisconnected, send.
  rewrite Hc, Hws. reflexivity.
Qed.

Lemma sendMessage_disconnected payload w :
  isConnected w = false ->
  sendMessage payload w =
  (Throw (NotConnectedError
            "Websocket not yet connected, await connect() method first"), w).
Proof.
  intros Hc. unfold sendMessage, bind, throwIfDisconnected. rewrite Hc. reflexivity.
Qed.

(** The loop over the authenticated subscriptions, on a connected client
    with a token manager. *)
Lemma forEach_send (frame : Subscription -> option string -> Request) tm ws :
  forall (subs : list Subscription) (w : World),
    isConnected w = true -> webSocket w = Some ws ->
    webSocketTokenManager w = Some tm ->
    forEach subs (fun a =>
      bind (lastCachedToken (wallet a)) (fun token => sendMessage (frame a token))) w
    = (Normal tt,
       afterSending ws
         (map (fun a => frame a (getLastCachedToken (wallet a) tm)) subs) w).
Proof.
  induction subs as [|a subs IH]; intros w Hc Hws Htm; simpl.
  - rewrite afterSending_nil. reflexivity.
  - unfold bind at 1. unfold bind at 1. unfold lastCachedToken at 1. rewrite Htm.
    rewrite (sendMessage_connected _ _ ws Hc Hws).
    rewrite IH.
    + rewrite afterSending_app. reflexivity.
    + rewrite isConnected_afterSending. exact Hc.
    + exact Hws.
    + exact Htm.
Qed.

Lemma forEach_send_disconnected (frame : Subscription -> option string -> Request) tm :
  forall (subs : list Subscription) (w : World),
    isConnected w = false -> webSocketTokenManager w = Some tm -> subs <> [] ->
    forEach subs (fun a =>
      bind (lastCachedToken (wallet a)) (fun token => sendMessage (frame a token))) w
    = (Throw (NotConnectedError
                "Websocket not yet connected, await connect() method first"), w).
Proof.
  intros [|a subs] w Hc Htm Hne; [contradiction|]. simpl.
  unfold bind at 1. unfold bind at 1. unfold lastCachedToken at 1. rewrite Htm.
  rewrite (sendMessage_disconnected _ _ Hc). reflexivity.
Qed.

End SendingFacts.

(* ===================================================================== *)
(** ** Facts about [subscribe]                                            *)
(* ===================================================================== *)

Section SubscribeFacts.
Context `{Imports}.

(** *** The wallets a call references *)

Lemma existsb_eqb_In (x : string) (l : list string) :
  existsb (String.eqb x) l = true <-> In x l.
Proof.
  rewrite existsb_exists. split.
  - intros (y & Hy & E). apply String.eqb_eq in E. subst. exact Hy.
  - intros Hx. exists x. split; [exact Hx | apply String.eqb_refl].
Qed.

Lemma setAdd_In set x y : In y (setAdd set x) <-> In y set \/ y = x.
Proof.
  unfold setAdd. destruct (existsb (String.eqb x) set) eqn:E.
  - apply existsb_eqb_In in E. split; [tauto|]. intros [?| ->]; assumption.
  - rewrite in_app_iff. simpl. intuition congruence.
Qed.

Lemma setAdd_NoDup set x : List.NoDup set -> List.NoDup (setAdd set x).
Proof.
  intros Hnd. unfold setAdd. destruct (existsb (String.eqb x) set) eqn:E; [exact Hnd|].
  assert (~ In x set) as Hx.
  { intros Hin. apply existsb_eqb_In in Hin. congruence. }
  clear E. induction Hnd as [|a l Ha Hl IH]; simpl.
  - constructor; [intros []|constructor].
  - constructor.
    + rewrite in_app_iff. simpl. intros [?|[?|[]]]; [tauto|]. subst. apply Hx. left. reflexivity.
    + apply IH. intros Hin. apply Hx. right. exact Hin.
Qed.

Lemma fold_setAdd_In xs : forall set y,
  In y (fold_left setAdd xs set) <-> In y set \/ In y xs.
Proof.
  induction xs as [|x xs IH]; intros set y; simpl.
  - tauto.
  - rewrite IH, setAdd_In. intuition congruence.
Qed.

Lemma fold_setAdd_NoDup xs : forall set,
  List.NoDup set -> List.NoDup (fold_left setAdd xs set).
Proof.
  induction xs as [|x xs IH]; intros set Hnd; simpl; [exact Hnd|].
  apply IH, setAdd_NoDup, Hnd.
Qed.

Lemma arrayFromSet_In xs y : In y (arrayFromSet xs) <-> In y xs.
Proof. unfold arrayFromSet. rewrite fold_setAdd_In. simpl. tauto. Qed.

Lemma arrayFromSet_NoDup xs : List.NoDup (arrayFromSet xs).
Proof. apply fold_setAdd_NoDup. constructor. Qed.

Lemma hasWallet_spec s :
  hasWallet s = true <-> exists wl, wallet s = Some wl /\ wl <> "".
Proof.
  unfold hasWallet. destruct (wallet s) as [wl|].
  - destruct (String.eqb_spec wl ""); simpl; split.
    + discriminate.
    + intros (wl' & E & Hne). congruence.
    + intros _. exists wl. split; [reflexivity | assumption].
    + reflexivity.
  - split; [discriminate|]. intros (wl & E & _). discriminate.
Qed.

(** [uniqueWalletsOf] lists, each once, the non-empty wallets of the
    authenticated subscriptions. *)
Lemma uniqueWalletsOf_In subscriptions wl :
  In wl (uniqueWalletsOf subscriptions) <->
  exists s, In s subscriptions /\ isAuthenticatedSubscription s = true /\
            wallet s = Some wl /\ wl <> "".
Proof.
  unfold uniqueWalletsOf, authSubscriptionsOf.
  rewrite arrayFromSet_In, <- list_elem_of_In, list_elem_of_omap.
  split.
  - intros (s & Hs & E). apply list_elem_of_In in Hs.
    apply filter_In in Hs as (Hs & Hw). apply filter_In in Hs as (Hs & Ha).
    apply hasWallet_spec in Hw as (wl' & E' & Hne).
    exists s. repeat split; try assumption. congruence.
  - intros (s & Hs & Ha & E & Hne). exists s. split; [|exact E].
    apply list_elem_of_In, filter_In. split.
    + apply filter_In. split; assumption.
    + apply hasWallet_spec. exists wl. split; assumption.
Qed.

Lemma uniqueWalletsOf_NoDup subscriptions : List.NoDup (uniqueWalletsOf subscriptions).
Proof. apply arrayFromSet_NoDup. Qed.

Lemma uniqueWalletsOf_none subscriptions :
  (forall s, In s (authSubscriptionsOf subscriptions) -> hasWallet s = false) ->
  uniqueWalletsOf subscriptions = [].
Proof.
  intros Hall. destruct (uniqueWalletsOf subscriptions) as [|wl rest] eqn:E; [reflexivity|].
  assert (In wl (uniqueWalletsOf subscriptions)) as Hin by (rewrite E; left; reflexivity).
  apply uniqueWalletsOf_In in Hin as (s & Hs & Ha & Hw & Hne).
  assert (hasWallet s = false) as Hf.
  { apply Hall. apply filter_In. split; assumption. }
  assert (hasWallet s = true) as Ht.
  { apply hasWallet_spec. exists wl. split; assumption. }
  congruence.
Qed.

(** After [removeWalletFromSdkSubscription] a subscription has no wallet,
    and its other properties are as before. *)
Lemma removeWallet_hasWallet s : hasWallet (removeWalletFromSdkSubscription s) = false.
Proof.
  unfold removeWalletFromSdkSubscription. destruct (hasWallet s) eqn:E; [reflexivity | exact E].
Qed.

Lemma removeWallet_strips s :
  hasWallet s = true ->
  removeWalletFromSdkSubscription s =
  {| name := name s; wallet := None; params := params s |}.
Proof. unfold removeWalletFromSdkSubscription. intros ->. reflexivity. Qed.

Lemma removeWallet_name s : name (removeWalletFromSdkSubscription s) = name s.
Proof. unfold removeWalletFromSdkSubscription. destruct (hasWallet s); reflexivity. Qed.

Lemma removeWallet_params s : params (removeWalletFromSdkSubscription s) = params s.
Proof. unfold removeWalletFromSdkSubscription. destruct (hasWallet s); reflexivity. Qed.

Lemma removeWallet_isAuthenticated s :
  isAuthenticatedSubscription (removeWalletFromSdkSubscription s) =
  isAuthenticatedSubscription s.
Proof. unfold isAuthenticatedSubscription. rewrite removeWallet_name. reflexivity. Qed.

(** Every subscription is authenticated or public. *)
Lemma public_and_auth_empty subscriptions :
  authSubscriptionsOf subscriptions = [] ->
  publicSubscriptionsOf subscriptions = subscriptions.
Proof.
  unfold authSubscriptionsOf, publicSubscriptionsOf.
  induction subscriptions as [|s l IH]; simpl; [reflexivity|].
  destruct (isAuthenticatedSubscription s); simpl; [discriminate|].
  intros E. rewrite IH by exact E. reflexivity.
Qed.

Lemma public_not_authenticated subscriptions :
  List.filter isAuthenticatedSubscription (publicSubscriptionsOf subscriptions) = [].
Proof.
  unfold publicSubscriptionsOf.
  induction subscriptions as [|s l IH]; simpl; [reflexivity|].
  destruct (isAuthenticatedSubscription s) eqn:E; simpl; [exact IH|].
  rewrite E. exact IH.
Qed.

(** *** Resolving the tokens *)

Lemma prepareTokens_keeps uniqueWallets w p w1 :
  prepareTokens uniqueWallets w = (p, w1) ->
  webSocket w1 = webSocket w /\ sockets w1 = sockets w /\
  isConnected w1 = isConnected w.
Proof.
  unfold prepareTokens.
  destruct uniqueWallets as [|wl rest].
  - intros E. injection E as <- <-. repeat split.
  - destruct (webSocketTokenManager w) as [tm|].
    + destruct (getTokens (wl :: rest) tm) as [ps tm'].
      intros E. injection E as <- <-. repeat split.
    + intros E. injection E as <- <-. repeat split.
Qed.

Lemma prepareTokens_manager uniqueWallets w tokens w1 :
  uniqueWallets <> [] ->
  prepareTokens uniqueWallets w = (Fulfilled tokens, w1) ->
  exists tm ps tm',
    webSocketTokenManager w = Some tm /\
    getTokens uniqueWallets tm = (ps, tm') /\
    promiseAll ps = Fulfilled tokens /\
    w1 = set_webSocketTokenManager (Some tm') w.
Proof.
  unfold prepareTokens.
  destruct uniqueWallets as [|wl rest]; [contradiction|]. intros _.
  destruct (webSocketTokenManager w) as [tm|]; [|discriminate].
  destruct (getTokens (wl :: rest) tm) as [ps tm'] eqn:E.
  intros E'. injection E' as E1 E2.
  exists tm, ps, tm'. repeat split; auto.
Qed.

Lemma prepareTokens_nil w : prepareTokens [] w = (Fulfilled [], w).
Proof. reflexivity. Qed.

Lemma nonempty_ltb {A : Type} (l : list A) : Nat.ltb 0 (length l) = negb (bool_decide (l = [])).
Proof. destruct l; reflexivity. Qed.

(** Past its two guards and its [await], [subscribe] is its routing. *)
Lemma subscribe_routes subscriptions cid w tokens w1 :
  prepareTokens (uniqueWalletsOf subscriptions) w = (Fulfilled tokens, w1) ->
  authSubscriptionsOf subscriptions = [] \/ uniqueWalletsOf subscriptions <> [] ->
  subscribe subscriptions cid w =
  async (subscribeRouting subscriptions cid (authSubscriptionsOf subscriptions)
           (uniqueWalletsOf subscriptions)) w1.
Proof.
  intros Hp Hg. unfold subscribe.
  destruct Hg as [Ha|Hu].
  - rewrite Ha. simpl. rewrite Hp. reflexivity.
  - destruct (prepareTokens_manager _ _ _ _ Hu Hp) as (tm & ps & tm' & Htm & _).
    assert (Nat.ltb 0 (length (uniqueWalletsOf subscriptions)) = true) as Hlt.
    { destruct (uniqueWalletsOf subscriptions); [contradiction | reflexivity]. }
    rewrite Htm, Hlt. cbn [isConfigured negb]. rewrite andb_false_r, Hp. reflexivity.
Qed.

(** The two guards of [subscribe]. *)
Lemma subscribe_guards subscriptions cid w :
  authSubscriptionsOf subscriptions <> [] ->
  webSocketTokenManager w = None \/ uniqueWalletsOf subscriptions = [] ->
  exists message, subscribe subscriptions cid w = (Rejected (ConfigurationError message), w).
Proof.
  intros Ha Hg. unfold subscribe.
  destruct (authSubscriptionsOf subscriptions) as [|a auth]; [contradiction|].
  simpl. destruct (webSocketTokenManager w) as [tm|]; simpl.
  - destruct Hg as [Hg|Hg]; [discriminate|]. rewrite Hg. simpl.
    eexists. reflexivity.
  - eexists. reflexivity.
Qed.

End SubscribeFacts.

Section RoutingFacts.
Context `{Imports}.

Lemma routing_single subscriptions cid auth wallet0 w ws tm :
  isConnected w = true -> webSocket w = Some ws ->
  webSocketTokenManager w = Some tm ->
  subscribeRouting subscriptions cid auth [wallet0] w =
  (Normal tt, afterSending ws [ singleFrame cid tm subscriptions wallet0 ] w).
Proof.
  intros Hc Hws Htm. unfold subscribeRouting. simpl.
  unfold bind at 1. unfold lastCachedToken. rewrite Htm.
  apply sendMessage_connected; assumption.
Qed.

Lemma routing_split subscriptions cid uniqueWallets w ws tm :
  Nat.eqb (length uniqueWallets) 1 = false ->
  isConnected w = true -> webSocket w = Some ws ->
  webSocketTokenManager w = Some tm ->
  subscribeRouting subscriptions cid (authSubscriptionsOf subscriptions) uniqueWallets w =
  (Normal tt,
   afterSending ws
     (publicFrames cid subscriptions ++
      map (authFrame cid tm) (authSubscriptionsOf subscriptions)) w).
Proof.
  intros Hlen Hc Hws Htm. unfold subscribeRouting. rewrite Hlen.
  cbv zeta. unfold bind at 1, publicFrames.
  pose proof (forEach_send (fun a token =>
             SubscribeRequest cid [removeWalletFromSdkSubscription a] token) tm ws)
    as Hloop.
  cbv beta in Hloop.
  destruct (publicSubscriptionsOf subscriptions) as [|p ps];
    cbn [length Nat.ltb Nat.leb]; cbv iota.
  - unfold ret. cbv beta iota. rewrite Hloop by assumption. reflexivity.
  - rewrite (sendMessage_connected _ _ ws Hc Hws).
    rewrite Hloop.
    + rewrite afterSending_app. reflexivity.
    + rewrite isConnected_afterSending. exact Hc.
    + exact Hws.
    + exact Htm.
Qed.

Lemma routing_public_only subscriptions cid w ws :
  isConnected w = true -> webSocket w = Some ws ->
  subscribeRouting subscriptions cid [] [] w =
  (Normal tt, afterSending ws (publicFrames cid subscriptions) w).
Proof.
  intros Hc Hws. unfold subscribeRouting.
  change (Nat.eqb (length (@nil string)) 1) with false. cbv iota zeta.
  unfold bind at 1, publicFrames.
  destruct (publicSubscriptionsOf subscriptions) as [|p ps];
    cbn [length Nat.ltb Nat.leb]; cbv iota.
  - unfold ret. rewrite afterSending_nil. reflexivity.
  - rewrite (sendMessage_connected _ _ ws Hc Hws). reflexivity.
Qed.

Lemma routing_disconnected subscriptions cid w :
  isConnected w = false ->
  subscriptions <> [] ->
  (authSubscriptionsOf subscriptions = [] /\ uniqueWalletsOf subscriptions = []) \/
  is_Some (webSocketTokenManager w) ->
  subscribeRouting subscriptions cid (authSubscriptionsOf subscriptions)
    (uniqueWalletsOf subscriptions) w =
  (Throw (NotConnectedError notConnectedMessage), w).
Proof.
  intros Hc Hne Hg. unfold subscribeRouting.
  destruct (Nat.eqb (length (uniqueWalletsOf subscriptions)) 1) eqn:Hlen.
  - destruct Hg as [[_ Hu]|[tm Htm]].
    + rewrite Hu in Hlen. discriminate.
    + unfold bind at 1. unfold lastCachedToken. rewrite Htm.
      apply sendMessage_disconnected. exact Hc.
  - cbv zeta. unfold bind at 1.
    destruct (publicSubscriptionsOf subscriptions) as [|p ps] eqn:Ep;
      cbn [length Nat.ltb Nat.leb]; cbv iota.
    + assert (authSubscriptionsOf subscriptions <> []) as Ha.
      { intros Ha. apply public_and_auth_empty in Ha. congruence. }
      destruct Hg as [[Ha' _]|[tm Htm]]; [contradiction|].
      unfold ret. cbv beta iota.
      apply (forEach_send_disconnected _ tm); assumption.
    + rewrite (sendMessage_disconnected _ _ Hc). reflexivity.
Qed.

(** Connected and past the guards, the routing returns. *)
Lemma routing_connected subscriptions cid w :
  isConnected w = true ->
  (authSubscriptionsOf subscriptions = [] /\ uniqueWalletsOf subscriptions = []) \/
  is_Some (webSocketTokenManager w) ->
  fst (subscribeRouting subscriptions cid (authSubscriptionsOf subscriptions)
         (uniqueWalletsOf subscriptions) w) = Normal tt.
Proof.
  intros Hc Hg.
  destruct (isConnected_handle w Hc) as (ws & s & Hws & _).
  destruct Hg as [[Ha Hu]|[tm Htm]].
  - rewrite Ha, Hu, (routing_public_only _ _ _ ws Hc Hws). reflexivity.
  - destruct (Nat.eqb (length (uniqueWalletsOf subscriptions)) 1) eqn:Hlen.
    + destruct (uniqueWalletsOf subscriptions) as [|wallet0 [|]]; try discriminate.
      rewrite (routing_single _ _ _ _ _ ws tm Hc Hws Htm). reflexivity.
    + rewrite (routing_split _ _ _ _ ws tm Hlen Hc Hws Htm). reflexivity.
Qed.

(** Not connected, the routing leaves the world as it found it. *)
Lemma routing_disconnected_world subscriptions cid auth uniqueWallets w :
  isConnected w = false ->
  snd (subscribeRouting subscriptions cid auth uniqueWallets w) = w.
Proof.
  intros Hc. unfold subscribeRouting.
  destruct (Nat.eqb (length uniqueWallets) 1).
  - unfold bind at 1. unfold lastCachedToken.
    destruct (webSocketTokenManager w); [|reflexivity].
    rewrite (sendMessage_disconnected _ _ Hc). reflexivity.
  - cbv zeta. unfold bind at 1.
    destruct (publicSubscriptionsOf subscriptions) as [|p ps];
      cbn [length Nat.ltb Nat.leb]; cbv iota.
    + unfold ret. cbv beta iota. destruct auth as [|a auth]; [reflexivity|].
      simpl. unfold bind at 1. unfold bind at 1. unfold lastCachedToken at 1.
      destruct (webSocketTokenManager w); [|reflexivity].
      rewrite (sendMessage_disconnected _ _ Hc). reflexivity.
    + rewrite (sendMessage_disconnected _ _ Hc). reflexivity.
Qed.

(** Not connected, [subscribe] gives no socket anything. *)
Lemma subscribe_disconnected_sockets subscriptions cid w :
  isConnected w = false ->
  sockets (snd (subscribe subscriptions cid w)) = sockets w.
Proof.
  intros Hc. unfold subscribe.
  destruct (Nat.ltb 0 (length (authSubscriptionsOf subscriptions)) &&
            negb (isConfigured (webSocketTokenManager w))); [reflexivity|].
  destruct (Nat.ltb 0 (length (authSubscriptionsOf subscriptions)) &&
            negb (Nat.ltb 0 (length (uniqueWalletsOf subscriptions)))); [reflexivity|].
  destruct (prepareTokens (uniqueWalletsOf subscriptions) w) as [p w1] eqn:Hp.
  apply prepareTokens_keeps in Hp as (_ & Hs & Hc1).
  destruct p as [tokens|e]; [|exact Hs].
  unfold async.
  pose proof (routing_disconnected_world subscriptions cid
                (authSubscriptionsOf subscriptions) (uniqueWalletsOf subscriptions) w1)
    as Hw.
  destruct (subscribeRouting subscriptions cid (authSubscriptionsOf subscriptions)
              (uniqueWalletsOf subscriptions) w1) as [[[]|e] w2];
    simpl in Hw |- *; rewrite Hw by congruence; exact Hs.
Qed.

End RoutingFacts.

(* ===================================================================== *)
(** ** Facts about the connection life cycle                              *)
(* ===================================================================== *)

Section LifeCycleFacts.
Context `{Imports}.

Lemma run_snoc evs ev w : run (evs ++ [ev]) w = step ev (run evs w).
Proof. unfold run. rewrite fold_left_app. reflexivity. Qed.

Lemma run_app evs1 evs2 w : run (evs1 ++ evs2) w = run evs2 (run evs1 w).
Proof. unfold run. apply fold_left_app. Qed.

(** A property of freshly constructed clients that every event preserves
    holds in every reachable world. *)
Lemma reachable_ind (P : World -> Prop) :
  (forall options w0, constructor options = Normal w0 -> P w0) ->
  (forall ev w, P w -> P (step ev w)) ->
  forall w, reachable w -> P w.
Proof.
  intros Hinit Hstep w (options & w0 & evs & Hc & ->).
  induction evs as [|ev evs IH] using rev_ind.
  - apply (Hinit options). exact Hc.
  - rewrite run_snoc. apply Hstep. exact IH.
Qed.

Lemma reachable_step ev w : reachable w -> reachable (step ev w).
Proof.
  intros (options & w0 & evs & Hc & ->).
  exists options, w0, (evs ++ [ev]). split; [exact Hc | symmetry; apply run_snoc].
Qed.

Lemma reachable_run evs w : reachable w -> reachable (run evs w).
Proof.
  intros (options & w0 & evs0 & Hc & ->).
  exists options, w0, (evs0 ++ evs). split; [exact Hc | symmetry; apply run_app].
Qed.

Lemma constructor_world options w0 :
  constructor options = Normal w0 ->
  webSocket w0 = None /\ sockets w0 = ∅ /\ reconnectAttempt w0 = 0 /\
  timers w0 = [] /\ polling w0 = [] /\
  shouldReconnectAutomatically w0 = optShouldReconnectAutomatically options /\
  webSocketTokenManager w0 = newWebsocketTokenManager <$> websocketAuthTokenFetch options.
Proof.
  unfold constructor.
  destruct (if sandbox options then _ else _) as [u|]; [|discriminate].
  destruct (String.eqb u ""); [discriminate|].
  intros E. injection E as <-. simpl.
  destruct (websocketAuthTokenFetch options); repeat split.
Qed.

(** *** What the methods do to the fields *)

Lemma connect_cases w :
  (isConnected w = true /\ connect w = (Normal None, w)) \/
  (isConnected w = false /\ exists ws,
     webSocket w = Some ws /\
     connect w = (Normal (Some ws), set_polling (polling w ++ [ws]) w)) \/
  (isConnected w = false /\ webSocket w = None /\
   let ws := fresh (dom (sockets w)) in
   connect w =
   (Normal (Some ws),
    set_polling (polling w ++ [ws]) (snd (createWebSocket w)))).
Proof.
  unfold connect. destruct (isConnected w); [left; split; reflexivity|].
  right. destruct (webSocket w) as [ws|] eqn:E.
  - left. split; [reflexivity|]. exists ws. split; [reflexivity|].
    simpl. rewrite E. reflexivity.
  - right. split; [reflexivity|]. split; reflexivity.
Qed.


Lemma handleWebSocketClose_policy w :
  shouldReconnectAutomatically w = true ->
  let w' := snd (handleWebSocketClose w) in
  timers w' = timers w ++ [backoffMilliseconds (reconnectAttempt w)] /\
  reconnectAttempt w' = reconnectAttempt w + 1 /\
  webSocket w' = None /\ sockets w' = sockets w /\
  shouldReconnectAutomatically w' = true /\ polling w' = polling w.
Proof.
  intros Hp. unfold handleWebSocketClose, bind. simpl. rewrite Hp.
  simpl. repeat split. exact Hp.
Qed.

Lemma handleWebSocketClose_no_policy w :
  shouldReconnectAutomatically w = false ->
  let w' := snd (handleWebSocketClose w) in
  timers w' = timers w /\ reconnectAttempt w' = reconnectAttempt w /\
  webSocket w' = None /\ sockets w' = sockets w /\ polling w' = polling w.
Proof.
  intros Hp. unfold handleWebSocketClose, bind. simpl. rewrite Hp.
  simpl. repeat split.
Qed.

Lemma disconnect_fields w :
  let w' := snd (disconnect w) in
  timers w' = timers w /\ pendingTimers w' = pendingTimers w /\
  reconnectAttempt w' = reconnectAttempt w /\ webSocket w' = None.
Proof.
  unfold disconnect. destruct (webSocket w) as [ws|] eqn:E.
  - unfold bind, destroyWebSocket. rewrite E. simpl. repeat split.
  - simpl. repeat split. exact E.
Qed.

(** Which events touch the timers and the counter, and how. *)
Lemma step_timers ev w :
  (timers (step ev w) = timers w /\
   (reconnectAttempt (step ev w) = reconnectAttempt w \/
    (reconnectAttempt (step ev w) = 0 /\
     exists ws, ev = PollSeesOpen ws /\ socketState ws w = Some OPEN))) \/
  (timers (step ev w) = timers w ++ [backoffMilliseconds (reconnectAttempt w)] /\
   reconnectAttempt (step ev w) = reconnectAttempt w + 1 /\
   shouldReconnectAutomatically w = true /\
   exists ws, ev = TransportCloses ws /\ listening ws w).
Proof.
  destruct ev as [| |ws|ws| |ws]; simpl.
  - left. destruct (connect_cases w) as [[_ ->]|[[_ (ws & _ & ->)]|[_ [_ ->]]]];
      simpl; split; auto.
  - left. destruct (disconnect_fields w) as (Ht & _ & Ha & _). split; auto.
  - left. simpl. split; auto.
  - destruct (sockets w !! ws) as [s|] eqn:Es; [|left; split; auto].
    destruct (bool_decide (readyState s = CLOSED)) eqn:Ec; [left; split; auto|].
    apply bool_decide_eq_false in Ec.
    destruct (onclose s) eqn:Eo; [|left; simpl; split; auto].
    destruct (shouldReconnectAutomatically w) eqn:Ep.
    + right.
      destruct (handleWebSocketClose_policy
                  (set_sockets (alter closed ws (sockets w)) w) Ep)
        as (Ht & Ha & _).
      split; [exact Ht|]. split; [exact Ha|]. split; [reflexivity|].
      exists ws. split; [reflexivity|]. exists s. auto.
    + left.
      destruct (handleWebSocketClose_no_policy
                  (set_sockets (alter closed ws (sockets w)) w) Ep)
        as (Ht & Ha & _).
      split; [exact Ht|]. left. exact Ha.
  - left. destruct (pendingTimers w) as [|n]; [split; auto|].
    destruct (connect_cases (set_timers (timers w) n w))
      as [[_ ->]|[[_ (ws & _ & ->)]|[_ [_ ->]]]]; simpl; split; auto.
  - left.
    destruct (bool_decide (ws ∈ polling w)) eqn:Ein; simpl; [|split; auto].
    destruct (bool_decide (socketState ws w = Some OPEN)) eqn:Eo; simpl; [|split; auto].
    apply bool_decide_eq_true in Eo.
    split; [reflexivity|]. right. split; [reflexivity|]. exists ws. auto.
Qed.

(** No event touches the token manager. *)
Lemma step_tokenManager ev w :
  webSocketTokenManager (step ev w) = webSocketTokenManager w.
Proof.
  destruct ev as [| |ws|ws| |ws]; simpl.
  - destruct (connect_cases w) as [[_ ->]|[[_ (ws & _ & ->)]|[_ [_ ->]]]]; reflexivity.
  - unfold disconnect. destruct (webSocket w) as [ws|] eqn:E; [|reflexivity].
    unfold bind, destroyWebSocket. rewrite E. reflexivity.
  - reflexivity.
  - destruct (sockets w !! ws) as [s|]; [|reflexivity].
    destruct (bool_decide (readyState s = CLOSED)); [reflexivity|].
    destruct (onclose s); [|reflexivity].
    unfold handleWebSocketClose, bind. simpl.
    destruct (shouldReconnectAutomatically w); reflexivity.
  - destruct (pendingTimers w) as [|n]; [reflexivity|].
    destruct (connect_cases (set_timers (timers w) n w))
      as [[_ ->]|[[_ (ws & _ & ->)]|[_ [_ ->]]]]; reflexivity.
  - destruct (bool_decide (ws ∈ polling w) &&
              bool_decide (socketState ws w = Some OPEN)); reflexivity.
Qed.

Lemma run_tokenManager evs : forall w,
  webSocketTokenManager (run evs w) = webSocketTokenManager w.
Proof.
  induction evs as [|ev evs IH]; intros w; [reflexivity|].
  simpl. rewrite IH. apply step_tokenManager.
Qed.

Lemma builtWithoutTokenFetch_manager w :
  builtWithoutTokenFetch w -> webSocketTokenManager w = None.
Proof.
  intros (options & w0 & evs & Hc & Hf & ->).
  rewrite run_tokenManager.
  apply constructor_world in Hc as (_ & _ & _ & _ & _ & _ & Htm).
  rewrite Htm, Hf. reflexivity.
Qed.

(** *** One listening socket at most *)

Lemma handleInvariant_ext w w' :
  sockets w' = sockets w -> webSocket w' = webSocket w ->
  handleInvariant w -> handleInvariant w'.
Proof.
  intros Hs Hw [H1 H2]. unfold handleInvariant, listening. rewrite Hs, Hw.
  split; assumption.
Qed.

Lemma handleInvariant_none w w' :
  webSocket w' = None ->
  (forall ws, listening ws w' -> listening ws w /\ webSocket w <> Some ws) ->
  handleInvariant w -> handleInvariant w'.
Proof.
  intros Hw Hl [H1 _]. split.
  - intros ws Hws. destruct (Hl ws Hws) as [Hold Hne].
    apply H1 in Hold. contradiction.
  - intros ws E. congruence.
Qed.

Lemma handleInvariant_connect w : handleInvariant w -> handleInvariant (snd (connect w)).
Proof.
  intros Hinv.
  destruct (connect_cases w) as [[_ ->]|[[_ (ws & _ & ->)]|[_ [Hnone ->]]]].
  - exact Hinv.
  - apply (handleInvariant_ext w); [reflexivity | reflexivity | exact Hinv].
  - destruct Hinv as [H1 H2]. simpl. split.
    + intros ws (s & Es & Eo & Er). simpl in Es |- *.
      destruct (decide (fresh (dom (sockets w)) = ws)) as [->|Hne]; [reflexivity|].
      rewrite lookup_insert_ne in Es by exact Hne.
      assert (webSocket w = Some ws) as E by (apply H1; exists s; auto).
      congruence.
    + intros ws E. simpl in E |- *. injection E as <-.
      rewrite lookup_insert_eq. eauto.
Qed.

Lemma handleInvariant_step ev w : handleInvariant w -> handleInvariant (step ev w).
Proof.
  intros Hinv. destruct ev as [| |ws0|ws0| |ws0]; simpl.
  - apply handleInvariant_connect, Hinv.
  - unfold disconnect. destruct (webSocket w) as [ws|] eqn:E; [|exact Hinv].
    unfold bind, destroyWebSocket. rewrite E. simpl.
    apply (handleInvariant_none w); [reflexivity | | exact Hinv].
    intros ws' (s & Es & Eo & Er). simpl in Es.
    destruct (decide (ws = ws')) as [->|Hne].
    + rewrite lookup_alter_eq, lookup_alter_eq in Es.
      destruct (sockets w !! ws') as [s0|]; [|discriminate].
      simpl in Es. injection Es as <-. discriminate.
    + rewrite !lookup_alter_ne in Es by exact Hne.
      split; [exists s; auto | congruence].
  - destruct Hinv as [H1 H2]. split; simpl.
    + intros ws (s & Es & Eo & Er). simpl in Es. apply H1.
      destruct (decide (ws0 = ws)) as [->|Hne].
      * rewrite lookup_alter_eq in Es.
        destruct (sockets w !! ws) as [s0|] eqn:E0; [|discriminate].
        simpl in Es. injection Es as <-. exists s0. split; [exact E0|].
        split; [exact Eo|]. intros Ec. apply Er. simpl. rewrite Ec. reflexivity.
      * rewrite lookup_alter_ne in Es by exact Hne. exists s. auto.
    + intros ws E. apply lookup_alter_is_Some, H2, E.
  - destruct (sockets w !! ws0) as [s0|] eqn:E0; [|exact Hinv].
    destruct (bool_decide (readyState s0 = CLOSED)) eqn:Ec; [exact Hinv|].
    apply bool_decide_eq_false in Ec.
    assert (forall ws, listening ws (set_sockets (alter closed ws0 (sockets w)) w) ->
                       listening ws w /\ ws <> ws0) as Hl.
    { intros ws (s & Es & Eo & Er). simpl in Es.
      destruct (decide (ws0 = ws)) as [->|Hne].
      - rewrite lookup_alter_eq, E0 in Es. simpl in Es. injection Es as <-.
        exfalso. apply Er. reflexivity.
      - rewrite lookup_alter_ne in Es by exact Hne.
        split; [exists s; auto | congruence]. }
    destruct (onclose s0) eqn:Eo.
    + assert (webSocket w = Some ws0) as Hcur.
      { apply Hinv. exists s0. auto. }
      assert (webSocket (snd (handleWebSocketClose
                (set_sockets (alter closed ws0 (sockets w)) w))) = None /\
              sockets (snd (handleWebSocketClose
                (set_sockets (alter closed ws0 (sockets w)) w))) =
              alter closed ws0 (sockets w)) as [Hw Hs].
      { destruct (shouldReconnectAutomatically w) eqn:Ep.
        - destruct (handleWebSocketClose_policy
                      (set_sockets (alter closed ws0 (sockets w)) w) Ep)
            as (_ & _ & Hw & Hs & _). split; assumption.
        - destruct (handleWebSocketClose_no_policy
                      (set_sockets (alter closed ws0 (sockets w)) w) Ep)
            as (_ & _ & Hw & Hs & _). split; assumption. }
      apply (handleInvariant_none w); [exact Hw | | exact Hinv].
      intros ws Hws. unfold listening in Hws. rewrite Hs in Hws.
      destruct (Hl ws Hws) as [Hold Hne]. split; [exact Hold | congruence].
    + destruct Hinv as [H1 H2]. split; simpl.
      * intros ws Hws. apply H1, Hl, Hws.
      * intros ws E. apply lookup_alter_is_Some, H2, E.
  - destruct (pendingTimers w) as [|n]; [exact Hinv|].
    apply handleInvariant_connect.
    apply (handleInvariant_ext w); [reflexivity | reflexivity | exact Hinv].
  - destruct (bool_decide (ws0 ∈ polling w) &&
              bool_decide (socketState ws0 w = Some OPEN)); [|exact Hinv].
    apply (handleInvariant_ext w); [reflexivity | reflexivity | exact Hinv].
Qed.

Lemma handleInvariant_reachable w : reachable w -> handleInvariant w.
Proof.
  apply reachable_ind.
  - intros options w0 Hc. apply constructor_world in Hc as (Hw & Hs & _).
    split.
    + intros ws (s & Es & _). rewrite Hs, lookup_empty in Es. discriminate.
    + intros ws E. congruence.
  - apply handleInvariant_step.
Qed.

(** *** The counter is reset by whoever polls the socket *)




(** *** A handler taken off stays off *)

Lemma detached_sockets ws w w' :
  sockets w' = sockets w -> detached ws w -> detached ws w'.
Proof. intros Hs. unfold detached. rewrite Hs. auto. Qed.

Lemma detached_alter ws i (f : WebSocket -> WebSocket) w w' :
  (forall s, onclose s = false -> onclose (f s) = false) ->
  sockets w' = alter f i (sockets w) ->
  detached ws w -> detached ws w'.
Proof.
  intros Hf Hs (s & Es & Eo). unfold detached. rewrite Hs.
  destruct (decide (i = ws)) as [->|Hne].
  - exists (f s). rewrite lookup_alter_eq, Es. split; [reflexivity | apply Hf, Eo].
  - exists s. rewrite lookup_alter_ne by exact Hne. split; assumption.
Qed.

Lemma detached_connect ws w : detached ws w -> detached ws (snd (connect w)).
Proof.
  intros Hd.
  destruct (connect_cases w) as [[_ ->]|[[_ (ws' & _ & ->)]|[_ [Hnone ->]]]].
  - exact Hd.
  - exact Hd.
  - destruct Hd as (s & Es & Eo). exists s. simpl. split; [|exact Eo].
    rewrite lookup_insert_ne; [exact Es|].
    intros E. pose proof (is_fresh (dom (sockets w))) as Hf.
    apply Hf. rewrite E. apply elem_of_dom. eauto.
Qed.

Lemma detached_step ws ev w : detached ws w -> detached ws (step ev w).
Proof.
  intros Hd. destruct ev as [| |ws0|ws0| |ws0]; simpl.
  - apply detached_connect, Hd.
  - unfold disconnect. destruct (webSocket w) as [i|] eqn:E; [|exact Hd].
    unfold bind, destroyWebSocket. rewrite E. simpl.
    apply (detached_alter ws i closing (set_sockets (alter detach i (sockets w)) w));
      [auto | reflexivity |].
    apply (detached_alter ws i detach w); [auto | reflexivity | exact Hd].
  - apply (detached_alter ws ws0 opened w); [auto | reflexivity | exact Hd].
  - destruct (sockets w !! ws0) as [s0|]; [|exact Hd].
    destruct (bool_decide (readyState s0 = CLOSED)); [exact Hd|].
    assert (detached ws (set_sockets (alter closed ws0 (sockets w)) w)) as Hd1.
    { apply (detached_alter ws ws0 closed w); [auto | reflexivity | exact Hd]. }
    destruct (onclose s0); [|exact Hd1].
    refine (detached_sockets ws _ _ _ Hd1).
    destruct (shouldReconnectAutomatically w) eqn:Ep.
    + destruct (handleWebSocketClose_policy
                  (set_sockets (alter closed ws0 (sockets w)) w) Ep)
        as (_ & _ & _ & Hs & _). exact Hs.
    + destruct (handleWebSocketClose_no_policy
                  (set_sockets (alter closed ws0 (sockets w)) w) Ep)
        as (_ & _ & _ & Hs & _). exact Hs.
  - destruct (pendingTimers w) as [|n]; [exact Hd|].
    apply detached_connect. exact Hd.
  - destruct (bool_decide (ws0 ∈ polling w) &&
              bool_decide (socketState ws0 w = Some OPEN)); exact Hd.
Qed.

Lemma detached_run ws evs : forall w, detached ws w -> detached ws (run evs w).
Proof.
  induction evs as [|ev evs IH]; intros w Hd; [exact Hd|].
  simpl. apply IH, detached_step, Hd.
Qed.

(** The close event of a socket that is not listening schedules nothing. *)
Lemma close_not_listening ws w :
  ~ listening ws w -> timers (step (TransportCloses ws) w) = timers w.
Proof.
  intros Hn.
  destruct (step_timers (TransportCloses ws) w)
    as [[Ht _]|(_ & _ & _ & ws' & E & Hl)]; [exact Ht|].
  injection E as <-. contradiction.
Qed.

Lemma detached_not_listening ws w : detached ws w -> ~ listening ws w.
Proof. intros (s & Es & Eo) (s' & Es' & Eo' & _). congruence. Qed.

(** [disconnect()] takes the handler off the socket it closes. *)
Lemma disconnect_detaches ws w :
  webSocket w = Some ws -> is_Some (sockets w !! ws) ->
  detached ws (snd (disconnect w)).
Proof.
  intros E [s Es]. unfold disconnect. rewrite E.
  unfold bind, destroyWebSocket. rewrite E. simpl.
  exists (closing (detach s)). simpl.
  rewrite !lookup_alter_eq, Es. split; reflexivity.
Qed.

(** After [disconnect()] no socket is listening. *)
Lemma disconnect_silences w ws :
  handleInvariant w -> ~ listening ws (snd (disconnect w)).
Proof.
  intros Hinv Hl.
  pose proof (handleInvariant_step CallDisconnect w Hinv) as [H1 _].
  simpl in H1. apply H1 in Hl.
  destruct (disconnect_fields w) as (_ & _ & _ & Hw). congruence.
Qed.

(** *** Successive reconnects *)


End LifeCycleFacts.

(* ===================================================================== *)
(** ** Subscription routing: what goes on the wire                        *)
(* ===================================================================== *)

(** C1 (the code departs from it).  The claim: no frame on the wire holds a
    subscription with its wallet.  The run below shows the departure: a
    public subscription that carries a wallet, sent by a connected client,
    goes out in the public frame as it was given, wallet included.  (The
    single-wallet path strips public subscriptions too; the public frame of
    the other path is built without [removeWalletFromSdkSubscription].) *)
Theorem public_frame_keeps_the_wallet :
  @uniqueWalletsOf sampleImports [ Samples.tickersWithWallet ] = [] /\
  fst (subscribe [ Samples.tickersWithWallet ] None Samples.connectedClient)
    = Fulfilled tt /\
  framesSent 0 (snd (subscribe [ Samples.tickersWithWallet ] None Samples.connectedClient))
    = [ SubscribeRequest None [ Samples.tickersWithWallet ] None ] /\
  walletsOnTheWire (SubscribeRequest None [ Samples.tickersWithWallet ] None)
    = [ Samples.tickersWithWallet ] /\
  wallet Samples.tickersWithWallet = Some "0xA".
Proof. repeat split; vm_compute; reflexivity. Qed.

(** What does hold of the wallets on the wire: a call that references one
    wallet sends no wallet at all, and a call that references several sends
    only those of its public subscriptions. *)
Lemma wallets_on_the_wire `{Imports} cid tm (subscriptions : list Subscription) wallet0 :
  walletsOnTheWire (singleFrame cid tm subscriptions wallet0) = [] /\
  Forall (fun frame => walletsOnTheWire frame = [])
    (map (authFrame cid tm) (authSubscriptionsOf subscriptions)) /\
  Forall (fun frame =>
            walletsOnTheWire frame =
            List.filter hasWallet (publicSubscriptionsOf subscriptions))
    (publicFrames cid subscriptions).
Proof.
  split; [|split].
  - unfold walletsOnTheWire, singleFrame. simpl.
    induction subscriptions as [|s l IH]; simpl; [reflexivity|].
    rewrite removeWallet_hasWallet. exact IH.
  - apply Forall_map, Forall_forall. intros a _.
    unfold walletsOnTheWire, authFrame. simpl.
    rewrite removeWallet_hasWallet. reflexivity.
  - unfold publicFrames.
    destruct (publicSubscriptionsOf subscriptions) as [|p ps]; constructor;
      [reflexivity | constructor].
Qed.

(** C2.  A call whose subscriptions reference two or more distinct wallets,
    made on a connected client and with all tokens resolved, is fulfilled
    after sending exactly: the public subscriptions in one frame without
    token, if there are any; then one frame per authenticated subscription,
    in order, holding that subscription alone, without its wallet, and the
    token cached for its wallet.  No frame holds more than one authenticated
    subscription, so none combines two wallets. *)
Theorem subscribe_several_wallets `{Imports}
  (subscriptions : list Subscription) (cid : option string) (w w1 : World)
  (tokens : list string) :
  2 <= length (uniqueWalletsOf subscriptions) ->
  isConnected w = true ->
  prepareTokens (uniqueWalletsOf subscriptions) w = (Fulfilled tokens, w1) ->
  exists ws tm,
    webSocket w = Some ws /\ webSocketTokenManager w1 = Some tm /\
    let frames := publicFrames cid subscriptions ++
                  map (authFrame cid tm) (authSubscriptionsOf subscriptions) in
    subscribe subscriptions cid w = (Fulfilled tt, afterSending ws frames w1) /\
    framesSent ws (afterSending ws frames w1) = framesSent ws w ++ frames /\
    Forall (fun frame => tokenIn frame = None /\
                         subscriptionsIn frame = publicSubscriptionsOf subscriptions)
      (publicFrames cid subscriptions) /\
    length (publicFrames cid subscriptions) =
      (if Nat.ltb 0 (length (publicSubscriptionsOf subscriptions)) then 1 else 0) /\
    Forall (fun frame => walletsOnTheWire frame = [])
      (map (authFrame cid tm) (authSubscriptionsOf subscriptions)) /\
    Forall (fun frame =>
              length (List.filter isAuthenticatedSubscription (subscriptionsIn frame)) <= 1)
      frames.
Proof.
  intros Hlen Hc Hp.
  destruct (isConnected_handle w Hc) as (ws & s & Hws & Hs & _).
  destruct (prepareTokens_keeps _ _ _ _ Hp) as (Hws1 & Hs1 & Hc1).
  assert (uniqueWalletsOf subscriptions <> []) as Hne.
  { intros E. rewrite E in Hlen. simpl in Hlen. lia. }
  destruct (prepareTokens_manager _ _ _ _ Hne Hp) as (tm0 & ps & tm & _ & _ & _ & Hw1).
  assert (webSocketTokenManager w1 = Some tm) as Htm by (rewrite Hw1; reflexivity).
  exists ws, tm. split; [exact Hws|]. split; [exact Htm|]. cbv zeta.
  split; [|split; [|split; [|split; [|split]]]].
  - rewrite (subscribe_routes _ _ _ _ _ Hp (or_intror Hne)). unfold async.
    rewrite (routing_split _ _ _ _ ws tm).
    + reflexivity.
    + apply Nat.eqb_neq. lia.
    + congruence.
    + congruence.
    + exact Htm.
  - rewrite (framesSent_afterSending _ _ _ s) by congruence.
    unfold framesSent. rewrite Hs1. reflexivity.
  - unfold publicFrames.
    destruct (publicSubscriptionsOf subscriptions) as [|p l]; constructor;
      [split; reflexivity | constructor].
  - unfold publicFrames.
    destruct (publicSubscriptionsOf subscriptions); reflexivity.
  - apply (wallets_on_the_wire cid tm subscriptions "").
  - apply Forall_app. split.
    + unfold publicFrames.
      destruct (publicSubscriptionsOf subscriptions) as [|p l] eqn:Ep;
        constructor; [|constructor].
      unfold subscriptionsIn. rewrite <- Ep, public_not_authenticated. simpl. lia.
    + apply Forall_map, Forall_forall. intros a _. simpl.
      destruct (isAuthenticatedSubscription (removeWalletFromSdkSubscription a));
        simpl; lia.
Qed.

Lemma subscribe_several_wallets_witness :
  fst (subscribe [ Samples.tickers; Samples.balancesOfA; Samples.ordersOfB ]
         (Some "cid-1") Samples.connectedClient) = Fulfilled tt /\
  framesSent 0
    (snd (subscribe [ Samples.tickers; Samples.balancesOfA; Samples.ordersOfB ]
            (Some "cid-1") Samples.connectedClient)) =
  [ SubscribeRequest (Some "cid-1") [ Samples.tickers ] None;
    SubscribeRequest (Some "cid-1") [ mkSubscription "balances" None [] ]
      (Some "token-0xA");
    SubscribeRequest (Some "cid-1") [ mkSubscription "orders" None [] ]
      (Some "token-0xB") ].
Proof.
  destruct (@subscribe_several_wallets sampleImports
              [ Samples.tickers; Samples.balancesOfA; Samples.ordersOfB ]
              (Some "cid-1") Samples.connectedClient
              (snd (prepareTokens [ "0xA"; "0xB" ] Samples.connectedClient))
              [ "token-0xA"; "token-0xB" ])
    as (ws & tm & Hws & Htm & Hrun & Hsent & _).
  - vm_compute. lia.
  - vm_compute. reflexivity.
  - vm_compute. reflexivity.
  - rewrite Hrun. split; [reflexivity|].
    vm_compute in Hws. injection Hws as <-.
    vm_compute in Htm. injection Htm as <-.
    vm_compute. reflexivity.
Defined.

(** C3, as the claim states it, fails: with no subscriptions at all the
    call references no wallet, completes, and sends no frame; and an
    authenticated subscription without wallet references no wallet either,
    and the call is rejected before anything is sent. *)
Lemma no_wallet_yet_no_frame :
  (@uniqueWalletsOf sampleImports [] = [] /\
   subscribe [] (Some "cid-1") Samples.connectedClient
     = (Fulfilled tt, Samples.connectedClient) /\
   framesSent 0 Samples.connectedClient = []) /\
  (@uniqueWalletsOf sampleImports [ Samples.balancesWithoutWallet ] = [] /\
   subscribe [ Samples.balancesWithoutWallet ] None Samples.connectedClient
     = (Rejected (ConfigurationError
                    "WebSocket: Missing wallet for authenticated subscription"),
        Samples.connectedClient)).
Proof. repeat split; vm_compute; reflexivity. Qed.

(** C3, amended.  On a connected client: a call whose subscriptions
    reference exactly one wallet, once its token is resolved, sends exactly
    one frame, holding all the subscriptions, public and authenticated,
    without their wallets, and the token cached for that wallet; a call
    with at least one subscription, none of them authenticated, sends
    exactly one frame, holding all the subscriptions, and no token. *)
Theorem subscribe_one_frame `{Imports}
  (subscriptions : list Subscription) (cid : option string) (w : World) :
  isConnected w = true ->
  (forall wallet0 tokens w1,
     uniqueWalletsOf subscriptions = [ wallet0 ] ->
     prepareTokens [ wallet0 ] w = (Fulfilled tokens, w1) ->
     exists ws tm,
       webSocket w = Some ws /\ webSocketTokenManager w1 = Some tm /\
       subscribe subscriptions cid w =
         (Fulfilled tt,
          afterSending ws [ singleFrame cid tm subscriptions wallet0 ] w1) /\
       framesSent ws (afterSending ws [ singleFrame cid tm subscriptions wallet0 ] w1) =
         framesSent ws w ++ [ singleFrame cid tm subscriptions wallet0 ] /\
       subscriptionsIn (singleFrame cid tm subscriptions wallet0) =
         map removeWalletFromSdkSubscription subscriptions /\
       walletsOnTheWire (singleFrame cid tm subscriptions wallet0) = [] /\
       tokenIn (singleFrame cid tm subscriptions wallet0) =
         getLastCachedToken (Some wallet0) tm) /\
  (subscriptions <> [] ->
   authSubscriptionsOf subscriptions = [] ->
   exists ws,
     webSocket w = Some ws /\
     uniqueWalletsOf subscriptions = [] /\
     subscribe subscriptions cid w =
       (Fulfilled tt, afterSending ws [ SubscribeRequest cid subscriptions None ] w) /\
     framesSent ws (afterSending ws [ SubscribeRequest cid subscriptions None ] w) =
       framesSent ws w ++ [ SubscribeRequest cid subscriptions None ]).
Proof.
  intros Hc.
  destruct (isConnected_handle w Hc) as (ws & s & Hws & Hs & _).
  split.
  - intros wallet0 tokens w1 Hu Hp.
    destruct (prepareTokens_keeps _ _ _ _ Hp) as (Hws1 & Hs1 & Hc1).
    destruct (prepareTokens_manager [wallet0] w tokens w1) as
      (tm0 & ps & tm & _ & _ & _ & Hw1); [discriminate | exact Hp |].
    assert (webSocketTokenManager w1 = Some tm) as Htm by (rewrite Hw1; reflexivity).
    exists ws, tm. split; [exact Hws|]. split; [exact Htm|].
    split; [|split; [|split; [|split]]].
    + rewrite (subscribe_routes subscriptions cid w tokens w1).
      * unfold async. rewrite Hu.
        rewrite (routing_single _ _ _ _ _ ws tm); [reflexivity | | | exact Htm];
          congruence.
      * rewrite Hu. exact Hp.
      * right. rewrite Hu. discriminate.
    + rewrite (framesSent_afterSending _ _ _ s) by congruence.
      unfold framesSent. rewrite Hs1. reflexivity.
    + reflexivity.
    + apply (wallets_on_the_wire cid tm subscriptions wallet0).
    + reflexivity.
  - intros Hne Ha.
    assert (uniqueWalletsOf subscriptions = []) as Hu.
    { apply uniqueWalletsOf_none. rewrite Ha. intros x []. }
    exists ws. split; [exact Hws|]. split; [exact Hu|]. split.
    + rewrite (subscribe_routes subscriptions cid w [] w).
      * unfold async. rewrite Ha, Hu.
        rewrite (routing_public_only _ _ _ ws Hc Hws).
        unfold publicFrames. rewrite (public_and_auth_empty _ Ha).
        destruct subscriptions; [contradiction | reflexivity].
      * rewrite Hu. reflexivity.
      * left. exact Ha.
    + apply (framesSent_afterSending _ _ _ s). exact Hs.
Qed.

Lemma subscribe_one_frame_witness :
  framesSent 0
    (snd (subscribe [ Samples.tickers; Samples.balancesOfA; Samples.ordersOfA ]
            (Some "cid-1") Samples.connectedClient)) =
  [ SubscribeRequest (Some "cid-1")
      [ Samples.tickers; mkSubscription "balances" None [];
        mkSubscription "orders" None [] ]
      (Some "token-0xA") ] /\
  framesSent 0 (snd (subscribe [ Samples.tickers ] None Samples.connectedClient)) =
  [ SubscribeRequest None [ Samples.tickers ] None ].
Proof.
  split.
  - destruct (@subscribe_one_frame sampleImports
                [ Samples.tickers; Samples.balancesOfA; Samples.ordersOfA ]
                (Some "cid-1") Samples.connectedClient)
      as [Hone _]; [vm_compute; reflexivity|].
    destruct (Hone "0xA" [ "token-0xA" ]
                (snd (prepareTokens [ "0xA" ] Samples.connectedClient)))
      as (ws & tm & Hws & Htm & Hrun & _);
      [vm_compute; reflexivity | vm_compute; reflexivity |].
    rewrite Hrun.
    vm_compute in Hws. injection Hws as <-.
    vm_compute in Htm. injection Htm as <-.
    vm_compute. reflexivity.
  - destruct (@subscribe_one_frame sampleImports [ Samples.tickers ] None
                Samples.connectedClient)
      as [_ Hpublic]; [vm_compute; reflexivity|].
    destruct Hpublic as (ws & Hws & _ & Hrun & _);
      [discriminate | vm_compute; reflexivity |].
    rewrite Hrun. vm_compute in Hws. injection Hws as <-.
    vm_compute. reflexivity.
Defined.

(* ===================================================================== *)
(** ** Subscription routing: failures                                     *)
(* ===================================================================== *)

(** C5.  On a client that is not connected, [sendMessage] throws the
    not-connected error and leaves the world as it was: the payload is
    dropped, there is nowhere it could wait.  So do [listSubscriptions] and
    [unsubscribe].  So does the routing of [subscribe], the code that runs
    after its [await], whenever there is a subscription to send; hence
    [subscribe] is rejected with that error whenever it has got past its
    guards and its tokens and has a subscription to send.  And whatever
    [subscribe] is given, it hands no frame to any socket. *)
Theorem send_when_not_connected `{Imports} (w : World) :
  isConnected w = false ->
  (forall payload,
     sendMessage payload w = (Throw (NotConnectedError notConnectedMessage), w)) /\
  listSubscriptions w = (Throw (NotConnectedError notConnectedMessage), w) /\
  (forall subscriptions,
     unsubscribe subscriptions w = (Throw (NotConnectedError notConnectedMessage), w)) /\
  (forall subscriptions cid,
     subscriptions <> [] ->
     (authSubscriptionsOf subscriptions = [] /\ uniqueWalletsOf subscriptions = []) \/
     is_Some (webSocketTokenManager w) ->
     subscribeRouting subscriptions cid (authSubscriptionsOf subscriptions)
       (uniqueWalletsOf subscriptions) w =
     (Throw (NotConnectedError notConnectedMessage), w)) /\
  (forall subscriptions cid tokens w1,
     subscriptions <> [] ->
     authSubscriptionsOf subscriptions = [] \/ uniqueWalletsOf subscriptions <> [] ->
     prepareTokens (uniqueWalletsOf subscriptions) w = (Fulfilled tokens, w1) ->
     subscribe subscriptions cid w =
       (Rejected (NotConnectedError notConnectedMessage), w1) /\
     sockets w1 = sockets w) /\
  (forall subscriptions cid,
     sockets (snd (subscribe subscriptions cid w)) = sockets w).
Proof.
  intros Hc. split; [|split; [|split; [|split; [|split]]]].
  - intros payload. apply sendMessage_disconnected, Hc.
  - apply sendMessage_disconnected, Hc.
  - intros subscriptions. apply sendMessage_disconnected, Hc.
  - intros subscriptions cid Hne Hg. apply routing_disconnected; assumption.
  - intros subscriptions cid tokens w1 Hne Hg Hp.
    destruct (prepareTokens_keeps _ _ _ _ Hp) as (Hws1 & Hs1 & Hc1).
    split; [|exact Hs1].
    rewrite (subscribe_routes _ _ _ _ _ Hp Hg). unfold async.
    rewrite routing_disconnected; [reflexivity | congruence | exact Hne |].
    destruct (uniqueWalletsOf subscriptions) as [|wl rest] eqn:Eu.
    + left. destruct Hg as [Ha|Hu]; [split; [exact Ha | reflexivity] | contradiction].
    + right.
      destruct (prepareTokens_manager (wl :: rest) w tokens w1)
        as (tm0 & ps & tm & _ & _ & _ & Hw1); [discriminate | exact Hp |].
      rewrite Hw1. simpl. eauto.
  - intros subscriptions cid. apply subscribe_disconnected_sockets, Hc.
Qed.

Lemma send_when_not_connected_witness :
  listSubscriptions Samples.freshClient =
    (Throw (NotConnectedError notConnectedMessage), Samples.freshClient) /\
  fst (subscribe [ Samples.tickers; Samples.ordersOfA ] None Samples.freshClient) =
    Rejected (NotConnectedError notConnectedMessage) /\
  sockets (snd (subscribe [ Samples.tickers; Samples.ordersOfA ] None
                  Samples.freshClient)) = ∅.
Proof.
  destruct (@send_when_not_connected sampleImports Samples.freshClient)
    as (_ & Hlist & _ & _ & Hsub & Hsockets); [vm_compute; reflexivity|].
  split; [exact Hlist|]. split.
  - destruct (Hsub [ Samples.tickers; Samples.ordersOfA ] None [ "token-0xA" ]
                (snd (prepareTokens [ "0xA" ] Samples.freshClient)))
      as [Hrun _].
    + discriminate.
    + right. vm_compute. discriminate.
    + vm_compute. reflexivity.
    + rewrite Hrun. reflexivity.
  - rewrite Hsockets. reflexivity.
Defined.

(** C6.  When a call holds an authenticated subscription, and the client
    was constructed without token fetch (so that it has no token manager) or
    none of the authenticated subscriptions carries a wallet, the call is
    rejected with a configuration error and the world is as before: no
    frame was sent, no token was fetched. *)
Theorem subscribe_configuration_error `{Imports}
  (subscriptions : list Subscription) (cid : option string) (w : World) :
  authSubscriptionsOf subscriptions <> [] ->
  builtWithoutTokenFetch w \/
  webSocketTokenManager w = None \/
  (forall s, In s (authSubscriptionsOf subscriptions) -> hasWallet s = false) ->
  exists message,
    subscribe subscriptions cid w = (Rejected (ConfigurationError message), w).
Proof.
  intros Ha Hg. apply subscribe_guards; [exact Ha|].
  destruct Hg as [Hg|[Hg|Hg]].
  - left. apply builtWithoutTokenFetch_manager, Hg.
  - left. exact Hg.
  - right. apply uniqueWalletsOf_none. exact Hg.
Qed.

Lemma subscribe_configuration_error_witness :
  (exists message,
     subscribe [ Samples.tickers; Samples.ordersOfA ] None
       (run Samples.connecting Samples.clientWithoutFetch) =
     (Rejected (ConfigurationError message),
      run Samples.connecting Samples.clientWithoutFetch)) /\
  (exists message,
     subscribe [ Samples.balancesWithoutWallet ] None Samples.connectedClient =
     (Rejected (ConfigurationError message), Samples.connectedClient)).
Proof.
  split.
  - apply (@subscribe_configuration_error sampleImports).
    + vm_compute. discriminate.
    + left. exists Samples.optionsWithoutFetch, Samples.clientWithoutFetch,
        Samples.connecting.
      split; [reflexivity|]. split; reflexivity.
  - apply (@subscribe_configuration_error sampleImports).
    + vm_compute. discriminate.
    + right. right. intros s Hs. vm_compute in Hs. destruct Hs as [<-|[]]. reflexivity.
Defined.

(** C9.  With no subscriptions, [subscribe] is fulfilled and leaves the
    world as it is, whether or not the client is connected or has a token
    manager: nothing is sent, nothing is fetched, nothing is thrown. *)
Theorem subscribe_nothing `{Imports} (cid : option string) (w : World) :
  subscribe [] cid w = (Fulfilled tt, w).
Proof. reflexivity. Qed.

(** C10.  [subscribeAuthenticated] and [subscribeUnauthenticated] return
    normally whatever the promise of [subscribe] settles to; the world they
    leave is the one [subscribe] leaves. *)
Theorem wrappers_drop_the_promise `{Imports}
  (subscriptions : list Subscription) (w w' : World) (outcome : Promise unit) :
  subscribe subscriptions None w = (outcome, w') ->
  subscribeAuthenticated subscriptions w = (Normal tt, w') /\
  subscribeUnauthenticated subscriptions w = (Normal tt, w').
Proof.
  intros E. unfold subscribeAuthenticated, subscribeUnauthenticated.
  rewrite E. split; reflexivity.
Qed.

Lemma wrappers_drop_the_promise_witness :
  subscribeAuthenticated [ Samples.ordersOfA ] Samples.freshClient =
    (Normal tt, snd (subscribe [ Samples.ordersOfA ] None Samples.freshClient)) /\
  subscribeAuthenticated [ Samples.ordersOfBad ] Samples.connectedClient =
    (Normal tt, snd (subscribe [ Samples.ordersOfBad ] None Samples.connectedClient)) /\
  subscribeAuthenticated [ Samples.ordersOfA ] Samples.clientWithoutFetch =
    (Normal tt, Samples.clientWithoutFetch).
Proof.
  split; [|split].
  - apply (@wrappers_drop_the_promise sampleImports [ Samples.ordersOfA ]
             Samples.freshClient _ (Rejected (NotConnectedError notConnectedMessage))).
    vm_compute. reflexivity.
  - apply (@wrappers_drop_the_promise sampleImports [ Samples.ordersOfBad ]
             Samples.connectedClient _ (Rejected TokenFetchError)).
    vm_compute. reflexivity.
  - apply (@wrappers_drop_the_promise sampleImports [ Samples.ordersOfA ]
             Samples.clientWithoutFetch _
             (Rejected (ConfigurationError
                "`websocketAuthTokenFetch` is required for authenticated subscriptions"))).
    reflexivity.
Defined.

(* ===================================================================== *)
(** ** The normalizer's optional fields                                   *)
(* ===================================================================== *)

(** C4, as the claim states it, fails twice.  A ticker whose trade count
    [n] is present and is [0] comes out without [numTrades]; and the fills
    [F] of an order come out under [fills] rewritten to their long form,
    not as they came in. *)
Lemma present_yet_dropped_or_rewritten :
  (hasOwn "n" Samples.zeroTradesTicker = true /\
   transformTickersMessage (JObject Samples.zeroTradesTicker) =
     Normal (JObject
       [ ("market", JString "ETH-USDC"); ("time", JNumber 1590408000000);
         ("open", JUndefined); ("high", JUndefined); ("low", JUndefined);
         ("close", JUndefined); ("closeQuantity", JUndefined);
         ("baseVolume", JUndefined); ("quoteVolume", JUndefined);
         ("percentChange", JUndefined); ("ask", JUndefined); ("bid", JUndefined);
         ("sequence", JUndefined) ])) /\
  (lookupProp "F" Samples.filledOrder = Some (JArray [ Samples.shortFill ]) /\
   exists long longFill,
     transformOrdersMessage (JObject Samples.filledOrder) = Normal (JObject long) /\
     lookupProp "fills" long = Some (JArray [ longFill ]) /\
     getProp longFill "fillId" = JString "fill-1" /\
     getProp Samples.shortFill "fillId" = JUndefined /\
     JArray [ longFill ] <> JArray [ Samples.shortFill ]).
Proof.
  split; [split; reflexivity|]. split; [reflexivity|].
  eexists. eexists. split; [reflexivity|]. split; [reflexivity|].
  split; [reflexivity|]. split; [reflexivity|]. discriminate.
Qed.

(** C4, amended.  For each short-form payload with optional fields (ticker,
    level-2 order book, order fill, order) and each entry [(k, K)] of its
    table: the normalizer returns on every object (for an order, provided
    its fills can be normalized); when the payload has no [k], the output
    has no [K]; when the payload has [k] with a truthy value, the output has
    [K] with that very value.  The fills of an order are optional in the
    same way, and come out normalized one by one. *)
Theorem optional_fields_carried :
  (forall t (payload : JsObject),
     (t = OrderShort ->
      exists entries, fillsOf (getProp (JObject payload) "F") = Normal entries) ->
     exists long, normalizerOf t (JObject payload) = Normal (JObject long)) /\
  (forall t k K (payload long : JsObject),
     In (k, K) (optionalFieldsOf t) ->
     normalizerOf t (JObject payload) = Normal (JObject long) ->
     (hasOwn k payload = false -> hasOwn K long = false) /\
     (forall v, lookupProp k payload = Some v -> truthy v = true ->
                lookupProp K long = Some v)) /\
  (forall (payload long : JsObject),
     transformOrdersMessage (JObject payload) = Normal (JObject long) ->
     (hasOwn "F" payload = false -> hasOwn "fills" long = false) /\
     (forall fills, lookupProp "F" payload = Some (JArray fills) ->
        exists longFills,
          mapCompletion transformOrderFill fills = Normal longFills /\
          lookupProp "fills" long = Some (JArray longFills))).
Proof.
  split; [|split].
  - apply normalizer_returns.
  - intros t k K payload long Hin Hrun. split.
    + apply (optional_field_absent t k K payload long Hin Hrun).
    + intros v. apply (optional_field_present t k K payload long v Hin Hrun).
  - intros payload long Hrun. split.
    + apply order_fills_absent, Hrun.
    + intros fills. apply order_fills_present, Hrun.
Qed.

Lemma optional_fields_carried_witness :
  (exists long,
     transformTickersMessage (JObject Samples.activeTicker) = Normal (JObject long) /\
     lookupProp "numTrades" long = Some (JNumber 14)) /\
  (exists long,
     transformTickersMessage (JObject [ ("m", JString "ETH-USDC") ]) =
       Normal (JObject long) /\
     hasOwn "numTrades" long = false).
Proof.
  destruct optional_fields_carried as (Hreturns & Hcarried & _).
  split.
  - destruct (Hreturns TickerShort Samples.activeTicker) as [long Hlong];
      [discriminate|].
    exists long. split; [exact Hlong|].
    apply (Hcarried TickerShort "n" "numTrades" Samples.activeTicker long);
      [left; reflexivity | exact Hlong | reflexivity | reflexivity].
  - destruct (Hreturns TickerShort [ ("m", JString "ETH-USDC") ]) as [long Hlong];
      [discriminate|].
    exists long. split; [exact Hlong|].
    apply (Hcarried TickerShort "n" "numTrades" [ ("m", JString "ETH-USDC") ] long);
      [left; reflexivity | exact Hlong | reflexivity].
Defined.

(* ===================================================================== *)
(** ** Reconnection                                                       *)
(* ===================================================================== *)



(** C8.  In a reachable world: an event schedules a reconnect only if it
    is the transport closing a socket that still has the client's handler,
    with the policy on; [disconnect()] schedules none, and takes the
    handler off the socket it closes; right after [disconnect()] no close
    event of any socket schedules a reconnect; and the close event of the
    socket that was disconnected schedules none however late it comes. *)
Theorem reconnect_only_on_transport_close `{Imports} (w : World) :
  reachable w ->
  (forall ev,
     timers (step ev w) = timers w \/
     (shouldReconnectAutomatically w = true /\
      exists ws, ev = TransportCloses ws /\ listening ws w)) /\
  timers (step CallDisconnect w) = timers w /\
  (forall ws, webSocket w = Some ws -> detached ws (step CallDisconnect w)) /\
  (forall ws,
     timers (step (TransportCloses ws) (step CallDisconnect w)) = timers w) /\
  (forall ws evs,
     webSocket w = Some ws ->
     timers (step (TransportCloses ws) (run evs (step CallDisconnect w))) =
     timers (run evs (step CallDisconnect w))).
Proof.
  intros Hr. pose proof (handleInvariant_reachable w Hr) as Hinv.
  assert (timers (step CallDisconnect w) = timers w) as Hd.
  { simpl. apply disconnect_fields. }
  split; [|split; [|split; [|split]]].
  - intros ev.
    destruct (step_timers ev w) as [[Ht _]|(_ & _ & Hp & Hev)];
      [left; exact Ht | right; split; assumption].
  - exact Hd.
  - intros ws Hws. simpl. apply disconnect_detaches; [exact Hws|].
    apply Hinv, Hws.
  - intros ws. rewrite close_not_listening; [exact Hd|].
    simpl. apply disconnect_silences, Hinv.
  - intros ws evs Hws. apply close_not_listening, detached_not_listening.
    apply detached_run. simpl. apply disconnect_detaches; [exact Hws|].
    apply Hinv, Hws.
Qed.

Lemma reconnect_only_on_transport_close_witness :
  timers (run [ CallDisconnect; TransportCloses 0 ] Samples.connectedClient) = [] /\
  timers (run [ CallDisconnect; CallConnect; TransportOpens 1; TransportCloses 0 ]
            Samples.connectedClient) = [] /\
  timers (run [ TransportCloses 0 ] Samples.connectedClient) = [ 1000%Z ].
Proof.
  destruct (@reconnect_only_on_transport_close sampleImports Samples.connectedClient)
    as (_ & _ & _ & Hnext & Hlater).
  - exists Samples.options, Samples.freshClient, Samples.connecting.
    split; reflexivity.
  - split; [|split].
    + exact (Hnext 0).
    + change (timers (step (TransportCloses 0)
                (run [ CallConnect; TransportOpens 1 ]
                   (step CallDisconnect Samples.connectedClient))) = []).
      rewrite (Hlater 0 [ CallConnect; TransportOpens 1 ]); reflexivity.
    + vm_compute. reflexivity.
Defined.

(* ===================================================================== *)
(** ** Further properties                                                 *)
(* ===================================================================== *)

(** X1.  Taking the wallet off a subscription changes nothing else: the
    name and the other properties are as before.  What comes out carries no
    wallet in the client's sense: its [wallet] is missing, or it was the
    empty string, which the client treats as no wallet and leaves in
    place. *)
Theorem removeWallet_changes_nothing_else (subscription : Subscription) :
  name (removeWalletFromSdkSubscription subscription) = name subscription /\
  params (removeWalletFromSdkSubscription subscription) = params subscription /\
  hasWallet (removeWalletFromSdkSubscription subscription) = false /\
  (wallet (removeWalletFromSdkSubscription subscription) = None \/
   (wallet subscription = Some "" /\
    removeWalletFromSdkSubscription subscription = subscription)).
Proof.
  unfold removeWalletFromSdkSubscription, hasWallet.
  destruct subscription as [n [wl|] p]; simpl.
  - destruct (String.eqb_spec wl "") as [->|Hne]; simpl.
    + repeat split. right. split; reflexivity.
    + repeat split. left. reflexivity.
  - repeat split. left. reflexivity.
Qed.

(** X2.  The wallets a call references: [uniqueWalletsOf] lists, each
    once, the non-empty wallets of its authenticated subscriptions. *)
Theorem uniqueWallets_are_the_distinct_wallets `{Imports}
  (subscriptions : list Subscription) :
  List.NoDup (uniqueWalletsOf subscriptions) /\
  (forall wl,
     In wl (uniqueWalletsOf subscriptions) <->
     exists s, In s subscriptions /\ isAuthenticatedSubscription s = true /\
               wallet s = Some wl /\ wl <> "").
Proof.
  split; [apply uniqueWalletsOf_NoDup | intros wl; apply uniqueWalletsOf_In].
Qed.

(** X3.  [subscribe] sends all its frames or none: it is fulfilled, or it
    is rejected and has handed no frame to any socket.  On a connected
    client it is rejected only by its guards or by a token fetch. *)
Theorem subscribe_all_or_nothing `{Imports}
  (subscriptions : list Subscription) (cid : option string) (w : World) :
  fst (subscribe subscriptions cid w) = Fulfilled tt \/
  (exists e, fst (subscribe subscriptions cid w) = Rejected e) /\
  sockets (snd (subscribe subscriptions cid w)) = sockets w.
Proof.
  destruct (isConnected w) eqn:Hc.
  - unfold subscribe.
    destruct (Nat.ltb 0 (length (authSubscriptionsOf subscriptions)) &&
              negb (isConfigured (webSocketTokenManager w))) eqn:G1;
      [right; split; [eexists|]; reflexivity|].
    destruct (Nat.ltb 0 (length (authSubscriptionsOf subscriptions)) &&
              negb (Nat.ltb 0 (length (uniqueWalletsOf subscriptions)))) eqn:G2;
      [right; split; [eexists|]; reflexivity|].
    destruct (prepareTokens (uniqueWalletsOf subscriptions) w) as [p w1] eqn:Hp.
    destruct (prepareTokens_keeps _ _ _ _ Hp) as (_ & Hs1 & Hc1).
    destruct p as [tokens|e]; [|right; split; [eexists; reflexivity | exact Hs1]].
    left. unfold async.
    pose proof (routing_connected subscriptions cid w1) as Hr.
    destruct (subscribeRouting subscriptions cid (authSubscriptionsOf subscriptions)
                (uniqueWalletsOf subscriptions) w1) as [[[]|e] w2].
    + reflexivity.
    + exfalso. simpl in Hr. 
      assert (@Throw unit e = Normal tt) as Habs; [|discriminate Habs].
      apply Hr; [congruence|].
      destruct (uniqueWalletsOf subscriptions) as [|wl rest] eqn:Eu.
      * left. split; [|reflexivity].
        destruct (authSubscriptionsOf subscriptions); [reflexivity|].
        simpl in G2. discriminate.
      * right.
        destruct (prepareTokens_manager (wl :: rest) w tokens w1)
          as (tm0 & ps & tm & _ & _ & _ & ->); [discriminate | exact Hp |].
        simpl. eauto.
  - destruct (fst (subscribe subscriptions cid w)) as [[]|e] eqn:E.
    + left. reflexivity.
    + right. split; [eexists; reflexivity|].
      apply subscribe_disconnected_sockets, Hc.
Qed.
